(** * Leads resource handler (backend/api/blueprints/leads.py)

    A shallow embedding of the Flask blueprint that lists, searches, creates,
    reads, updates and deletes rows of the [leads] table, together with the
    properties its specification states about it.

    Scope of the model.
    - Python [str] values are modelled as [string] (sequences of 8-bit
      characters) and stand for ASCII text; [lower], [strip] and [repr] are
      the ASCII parts of the Python methods.
    - The values carried by a JSON body and stored in a column are the JSON
      scalars [None], booleans, integers and strings.  JSON floats, arrays
      and objects as column values are outside the model.
    - The database is PostgreSQL behind SQLAlchemy.  Each SQL text the
      handlers build is modelled by a function on the table giving the
      meaning of that statement; the fragments interpolated into the INSERT
      and the UPDATE are modelled as strings, and an empty fragment makes the
      statement fail to parse.  The table stores the value it is given for a
      column (no type coercion, no constraint besides the server-generated
      [id]).
    - The text search of PostgreSQL (the match and the rank of a name for a
      term, the order among rows of equal rank) is a parameter of the model,
      and so is what becomes of the statement when the pasted term is no
      well-formed query or leaves its quotes; such a statement is modelled as
      far as the rows or the error it answers.
    - LIMIT and OFFSET are [bigint]: a negative number or one from 2^63 on is
      refused by the database.
    - The pagination helper is a parameter of the model.
    - The authentication decorator is outside the model: the views are
      modelled for an authorised caller. *)

From Stdlib Require Import List String Ascii ZArith NArith Bool Lia.
From Stdlib Require Import Sorting.Sorted Sorting.Permutation.
From Stdlib Require Import DecimalString.
Import ListNotations.
Open Scope string_scope.
Open Scope Z_scope.

(** ** Python strings *)

Module Py.

Definition ascii_lower (c : ascii) : ascii :=
  let n := N_of_ascii c in
  if ((65 <=? n) && (n <=? 90))%N then ascii_of_N (n + 32) else c.

(** [s.lower()] *)
Fixpoint lower (s : string) : string :=
  match s with
  | EmptyString => EmptyString
  | String c t => String (ascii_lower c) (lower t)
  end.

(** Whitespace as [str.strip()] sees it: TAB, LF, VT, FF, CR, FS, GS, RS, US
    and the space. *)
Definition is_space (c : ascii) : bool :=
  let n := N_of_ascii c in
  (((9 <=? n) && (n <=? 13)) || ((28 <=? n) && (n <=? 32)))%N.

Fixpoint lstrip (s : string) : string :=
  match s with
  | EmptyString => EmptyString
  | String c t => if is_space c then lstrip t else s
  end.

Fixpoint rstrip (s : string) : string :=
  match s with
  | EmptyString => EmptyString
  | String c t =>
      match rstrip t with
      | EmptyString => if is_space c then EmptyString else String c EmptyString
      | t' => String c t'
      end
  end.

(** [s.strip()] *)
Definition strip (s : string) : string := rstrip (lstrip s).

(** [s.split(sep)] for a one-character separator: never the empty list,
    [split sep ""] is the list holding the empty string. *)
Fixpoint split (sep : ascii) (s : string) : list string :=
  match s with
  | EmptyString => [EmptyString]
  | String c t =>
      if Ascii.eqb c sep then EmptyString :: split sep t
      else match split sep t with
           | [] => [String c EmptyString]
           | p :: ps => String c p :: ps
           end
  end.

(** [sep.join(l)] *)
Definition join (sep : string) (l : list string) : string := String.concat sep l.

(** [x in t] for a tuple of strings. *)
Definition str_in (x : string) (t : list string) : bool :=
  existsb (String.eqb x) t.

Definition comma : ascii := ascii_of_nat 44.
Definition squote : ascii := ascii_of_nat 39.
Definition dquote : ascii := ascii_of_nat 34.
Definition backslash : ascii := ascii_of_nat 92.

Fixpoint has_char (c : ascii) (s : string) : bool :=
  match s with
  | EmptyString => false
  | String d t => Ascii.eqb c d || has_char c t
  end.

Definition hex_digit (n : N) : ascii :=
  if (n <? 10)%N then ascii_of_N (48 + n) else ascii_of_N (87 + n).

(** One character of [repr(s)] inside the quotes [q]. *)
Definition repr_char (q c : ascii) : string :=
  let n := N_of_ascii c in
  if Ascii.eqb c q || Ascii.eqb c backslash then String backslash (String c EmptyString)
  else if (n =? 9)%N then String backslash "t"
  else if (n =? 10)%N then String backslash "n"
  else if (n =? 13)%N then String backslash "r"
  else if ((n <? 32) || (n =? 127))%N then
    String backslash
      (String "x"
         (String (hex_digit (n / 16)) (String (hex_digit (n mod 16)) EmptyString)))
  else String c EmptyString.

Fixpoint repr_body (q : ascii) (s : string) : string :=
  match s with
  | EmptyString => EmptyString
  | String c t => repr_char q c ++ repr_body q t
  end.

(** [repr(s)] of a string: single quotes, unless the string holds a single
    quote and no double quote. *)
Definition repr_str (s : string) : string :=
  let q := if has_char squote s && negb (has_char dquote s) then dquote else squote in
  String q (repr_body q s ++ String q EmptyString).

(** The scalar values of a JSON body and of a column. *)
Inductive value : Type :=
  | VNone
  | VBool (b : bool)
  | VInt (z : Z)
  | VStr (s : string).

(** [v is None] *)
Definition is_None (v : value) : bool :=
  match v with VNone => true | _ => false end.

(** The truth value of [v] in an [if]. *)
Definition truthy (v : value) : bool :=
  match v with
  | VNone => false
  | VBool b => b
  | VInt z => negb (z =? 0)
  | VStr s => negb (String.eqb s EmptyString)
  end.

(** [str(v)] *)
Definition str (v : value) : string :=
  match v with
  | VNone => "None"
  | VBool true => "True"
  | VBool false => "False"
  | VInt z => NilZero.string_of_int (Z.to_int z)
  | VStr s => s
  end.

(** *** Dictionaries

    A [dict] keeps its keys in insertion order, each key once. *)
Definition dict (V : Type) : Type := list (string * V).

Fixpoint dict_get {V} (k : string) (d : dict V) : option V :=
  match d with
  | [] => None
  | (k', v) :: t => if String.eqb k k' then Some v else dict_get k t
  end.

(** [d[k] = v]: in place for a key of [d], at the end for a new key. *)
Fixpoint dict_set {V} (k : string) (v : V) (d : dict V) : dict V :=
  match d with
  | [] => [(k, v)]
  | (k', v') :: t =>
      if String.eqb k k' then (k', v) :: t else (k', v') :: dict_set k v t
  end.

Definition keys {V} (d : dict V) : list string := map fst d.

(** One entry of a comprehension. *)
Definition dict_step {V} (d : dict V) (kv : string * V) : dict V :=
  dict_set (fst kv) (snd kv) d.

(** [{k: v for (k, v) in items}] *)
Definition dict_of_items {V} (items : list (string * V)) : dict V :=
  fold_left dict_step items [].

(** JSON documents, for the response bodies. *)
#[local] Set Warnings "-register-all".
Inductive json : Type :=
  | JNull
  | JBool (b : bool)
  | JInt (z : Z)
  | JStr (s : string)
  | JList (l : list json)
  | JDict (d : list (string * json)).

Definition json_of_value (v : value) : json :=
  match v with
  | VNone => JNull
  | VBool b => JBool b
  | VInt z => JInt z
  | VStr s => JStr s
  end.

Definition json_of_dict (d : dict value) : json :=
  JDict (map (fun kv => (fst kv, json_of_value (snd kv))) d).


End Py.

Import Py.

(** ** The [leads] table *)

Module Sql.

(** A row of [leads].  [row_id] is the integer primary key; [row_cols] gives
    the value of every other column, [VNone] for SQL NULL. *)
Record Row : Type := mkRow { row_id : Z; row_cols : string -> value }.

(** [getattr(row, field)] on a row that carries every column. *)
Definition getattr (r : Row) (field : string) : value :=
  if String.eqb field "id" then VInt (row_id r) else row_cols r field.

(** Modelled from the spec: the schema of [leads] is not part of the handler's
    file.  The table has the columns of the fixed field set, [id] is generated
    by the server ([next_id] is the sequence behind it) and every other column
    is nullable with no default. *)
Record DB : Type := mkDB { leads : list Row; next_id : Z }.

(** The exceptions a handler can end with. *)
Inductive exn : Type :=
  | ProgrammingError (* [execute]: the statement does not parse *)
  | DataError        (* [execute]: a negative LIMIT or OFFSET *)
  | AttributeError.  (* an attribute read off [None] *)

(** [ORDER BY key] (ascending, the order SQL takes when no direction is
    written): insertion sort, keeping rows of equal key in table order. *)
Fixpoint insert_by (key : Row -> Z) (r : Row) (l : list Row) : list Row :=
  match l with
  | [] => [r]
  | x :: t => if key r <=? key x then r :: l else x :: insert_by key r t
  end.

Definition order_by (key : Row -> Z) (l : list Row) : list Row :=
  fold_right (insert_by key) [] l.

(** [a] may stand before [b] in a result ordered by [key]. *)
Definition key_le (key : Row -> Z) (a b : Row) : Prop := key a <= key b.

(** The page a non-negative LIMIT and OFFSET cut out of the ordered rows. *)
Definition page_rows (limit offset : Z) (l : list Row) : list Row :=
  firstn (Z.to_nat limit) (skipn (Z.to_nat offset) l).

(** The largest [bigint] of PostgreSQL, the type LIMIT and OFFSET are read
    at. *)
Definition bigint_max : Z := 2 ^ 63 - 1.

(** A row count PostgreSQL takes for LIMIT or OFFSET: not negative and within
    [bigint]. *)
Definition row_count (n : Z) : bool := (0 <=? n) && (n <=? bigint_max).

(** [LIMIT :limit OFFSET :offset]: a negative number, or one beyond [bigint],
    is refused with a data error. *)
Definition limit_offset (limit offset : Z) (l : list Row) : exn + list Row :=
  if row_count limit && row_count offset then inr (page_rows limit offset l)
  else inl DataError.

(** [SELECT .. FROM LEADS ORDER BY id LIMIT :limit OFFSET :offset] *)
Definition select_page (limit offset : Z) (db : DB) : exn + list Row :=
  limit_offset limit offset (order_by row_id (leads db)).

(** What the search statement is once the term is pasted between the quotes
    of its text: the query that is written, when the term is a well-formed
    text-search query that stays inside its quotes; or another text (a term
    that is no query, a term with a quote in it), for which the database
    refuses or answers as [run] says. *)
Inductive pasted : Type :=
  | Query
  | Other (run : Z -> Z -> DB -> exn + list Row).

Section FullText.
(** PostgreSQL's text search is taken as given.
    [ts_parse search] tells what the statement is with the term pasted in.
    For a term that is a query, [ts_match search name] is
    [to_tsvector(name) @@ to_tsquery(search)] and [ts_rank search name] the
    rank [ts_rank(to_tsvector(name), 'search')], where the term is read as a
    query as it stands; the rank is scaled to an integer (only the order of
    ranks matters here).  Among rows of equal rank the database promises no
    order: [ts_scan search limit offset] is the order in which it meets the
    rows of the table when it runs the statement with these parameters. *)
Variable ts_parse : string -> pasted.
Variable ts_match : string -> value -> bool.
Variable ts_rank : string -> value -> Z.
Variable ts_scan : string -> Z -> Z -> list Row -> list Row.

(** The rows of the written query in its order, before LIMIT and OFFSET. *)
Definition search_rows (search : string) (limit offset : Z) (db : DB) : list Row :=
  order_by (fun r => ts_rank search (getattr r "company_name"))
    (filter (fun r => ts_match search (getattr r "company_name"))
       (ts_scan search limit offset (leads db))).

(** [SELECT .. FROM leads WHERE to_tsvector(company_name) @@ to_tsquery('{search}')
    ORDER BY ts_rank(to_tsvector(company_name), '{search}')
    LIMIT :limit OFFSET :offset] *)
Definition select_search (search : string) (limit offset : Z) (db : DB)
  : exn + list Row :=
  match ts_parse search with
  | Query => limit_offset limit offset (search_rows search limit offset db)
  | Other run => run limit offset db
  end.

(** The statement is the one the handler writes: there is no search term, or
    the term is a query. *)
Definition written_query (search : option string) : Prop :=
  match search with
  | None => True
  | Some search => ts_parse search = Query
  end.

(** The database meets every row of the table once, in whatever order, when
    it runs the search statement with these parameters. *)
Definition scans_table (search : option string) (limit offset : Z) (db : DB) : Prop :=
  match search with
  | None => True
  | Some search => Permutation (ts_scan search limit offset (leads db)) (leads db)
  end.
End FullText.

(** [SELECT .. FROM leads WHERE id = :id] *)
Definition select_by_id (id : Z) (db : DB) : list Row :=
  filter (fun r => row_id r =? id) (leads db).

(** The row a statement writes: column [c] takes the bound parameter [c] when
    the statement names the column, and [otherwise c] if not. *)
Definition assign (params : dict value) (otherwise : string -> value) : string -> value :=
  fun c => match dict_get c params with
           | Some v => v
           | None => otherwise c
           end.

(** [INSERT INTO leads ({columns}) VALUES ({placeholders}) RETURNING *], given
    the interpolated column list and the bound parameters.  With nothing
    between the parentheses the text is not an INSERT statement of
    PostgreSQL. *)
Definition insert (columns : string) (params : dict value) (db : DB)
  : (exn + list Row) * DB :=
  if String.eqb columns EmptyString then (inl ProgrammingError, db)
  else
    let r := mkRow (next_id db) (assign params (fun _ => VNone)) in
    (inr [r], mkDB (leads db ++ [r]) (next_id db + 1)).

Definition update_row (params : dict value) (r : Row) : Row :=
  mkRow (row_id r) (assign params (row_cols r)).

(** [UPDATE leads SET {updates} WHERE id = :id RETURNING *], given the
    interpolated SET clause and the bound parameters.  The grammar wants at
    least one assignment after SET: with an empty clause the text does not
    parse. *)
Definition update (updates : string) (params : dict value) (id : Z) (db : DB)
  : (exn + list Row) * DB :=
  if String.eqb updates EmptyString then (inl ProgrammingError, db)
  else
    (inr (map (update_row params) (select_by_id id db)),
     mkDB (map (fun r => if row_id r =? id then update_row params r else r) (leads db))
          (next_id db)).

(** [DELETE FROM leads WHERE id = :id RETURNING *] *)
Definition delete (id : Z) (db : DB) : list Row * DB :=
  (select_by_id id db,
   mkDB (filter (fun r => negb (row_id r =? id)) (leads db)) (next_id db)).

(** [result.first()] *)
Definition first (rows : list Row) : option Row := hd_error rows.

End Sql.

Import Sql.

(** ** The handlers *)

Inductive http_method : Type := GET | POST | PUT | DELETE | HEAD.

(** What a handler reads of [flask.request]: the method, the query string
    ([args], in the order written) and the JSON body ([get_json()], an
    object, its entries in the order written). *)
Record Request : Type := mkRequest {
  method : http_method;
  args : list (string * string);
  get_json : dict value
}.

(** [request.args.get(k)]: the first value given for [k]. *)
Definition args_get (k : string) (request : Request) : option string :=
  dict_get k (args request).

(** [request.args.get(k, default)] *)
Definition args_get_default (k default : string) (request : Request) : string :=
  match args_get k request with
  | Some v => v
  | None => default
  end.

(** What a view gives back to Flask: a body with a status (a view returning a
    bare dict is answered with status 200), or an exception left to the
    framework. *)
Inductive view_result : Type :=
  | Returned (body : json) (status : Z)
  | Raised (e : exn).

Definition status_of (r : view_result) : option Z :=
  match r with
  | Returned _ s => Some s
  | Raised _ => None
  end.


Definition DEFAULT_LEAD_FIELDS : list string :=
  [ "id";
    "company_name";
    "company_address";
    "formation_date";
    "contact_name";
    "website";
    "phone";
    "email";
    "twitter";
    "facebook";
    "linkedin";
    "last_email";
    "last_google_search";
    "last_twitter_search";
    "last_facebook_search";
    "last_linkedin_search";
    "instagram";
    "mission_statement";
    "programs";
    "populations_served";
    "county";
    "colorado_region";
    "data_source" ].

Definition VALID_DATA_SOURCES : list string :=
  [ "socrata";
    "colorado_nonprofit_association";
    "user_entry" ].

(** [{field: getattr(row, field) for field in fields}] *)
Definition row_dict (fields : list string) (row : Row) : dict value :=
  dict_of_items (map (fun field => (field, getattr row field)) fields).

(** The full projection every item operation answers with. *)
Definition project (row : Row) : json :=
  json_of_dict (row_dict DEFAULT_LEAD_FIELDS row).

(** [request.args.get("drop_null", "false").lower() == "true"] *)
Definition parse_drop_null (request : Request) : bool :=
  String.eqb (lower (args_get_default "drop_null" "false" request)) "true".

(** The [include] list of [_get_all_leads]. *)
Definition parse_include (request : Request) : list string :=
  match args_get "include" request with
  | None => DEFAULT_LEAD_FIELDS
  | Some include =>
      map (fun field => strip (lower field))
        (filter (fun field => str_in (lower field) DEFAULT_LEAD_FIELDS)
           (split comma include))
  end.


Definition _parse_search_param (request : Request) : option string :=
  args_get "search" request.

(** One turn of the loop over the result rows. *)
Definition lead_of_row (include : list string) (drop_null : bool) (row : Row) : dict value :=
  let lead := row_dict include row in
  if drop_null
  then dict_of_items (filter (fun kv => negb (is_None (snd kv))) lead)
  else lead.

(** The loop [for row in res]: the leads collected and their count. *)
Definition collect_leads (include : list string) (drop_null : bool) (res : list Row)
  : list (dict value) * Z :=
  fold_left
    (fun acc row => ((fst acc ++ [lead_of_row include drop_null row])%list, snd acc + 1))
    res ([], 0).

(** The body of a page of leads. *)
Definition list_response (page perpage : Z) (response_body : list (dict value)) (count : Z)
  : json :=
  JDict [("count", JInt count);
         ("query", JDict [("page", JInt page); ("perpage", JInt perpage)]);
         ("leads", JList (map json_of_dict response_body))].

Definition not_found_message : string := "Could not find lead with given id.".

(** The texts interpolated into the statements. *)
Definition columns_sql : string := join "," DEFAULT_LEAD_FIELDS.

Definition insert_columns_sql (body : dict value) : string := join "," (keys body).

Definition insert_placeholders_sql (body : dict value) : string :=
  join "," (map (fun column => ":" ++ column) (keys body)).

Definition updates_sql (body : dict value) : string :=
  join "," (map (fun field => field ++ "=:" ++ field) (keys body)).

Definition nl : string := String (ascii_of_nat 10) EmptyString.

(** The text [_modify_lead_with_id] hands to [text(..)]. *)
Definition update_statement (body : dict value) : string :=
  nl ++ "                UPDATE leads" ++
  nl ++ "                SET " ++ updates_sql body ++
  nl ++ "                WHERE id = :id" ++
  nl ++ "                RETURNING *;" ++
  nl ++ "            ".

(** The body filters of the two writing handlers:
    [field != "id" and field in DEFAULT_LEAD_FIELDS], and for a new lead
    [.. and value is not None] besides. *)
Definition modify_keeps (kv : string * value) : bool :=
  negb (String.eqb (fst kv) "id") && str_in (fst kv) DEFAULT_LEAD_FIELDS.

Definition create_keeps (kv : string * value) : bool :=
  negb (String.eqb (fst kv) "id") && str_in (fst kv) DEFAULT_LEAD_FIELDS
  && negb (is_None (snd kv)).

Definition create_body (request : Request) : dict value :=
  dict_of_items (filter create_keeps (get_json request)).

Definition modify_body (request : Request) : dict value :=
  dict_of_items (filter modify_keeps (get_json request)).

(** [body.get(k)]: [None] for a key the body lacks. *)
Definition body_get (k : string) (body : dict value) : value :=
  match dict_get k body with
  | Some v => v
  | None => VNone
  end.

Definition invalid_data_source_message (data_source : string) : string :=
  "Invalid value for the " ++ String dquote "data_source" ++ String dquote " parameter: "
  ++ repr_str data_source.

(** The INSERT of [_create_new_lead] and the projection of the row it
    returns. *)
Definition insert_lead (body : dict value) (db : DB) : view_result * DB :=
  match Sql.insert (insert_columns_sql body) body db with
  | (inl e, db') => (Raised e, db')
  | (inr rows, db') =>
      match first rows with
      | Some row => (Returned (project row) 200, db')
      | None => (Raised AttributeError, db')
      end
  end.

Definition _create_new_lead (request : Request) (valid_data_sources : list string) (db : DB)
  : view_result * DB :=
  let body := create_body request in
  let data_source := body_get "data_source" body in
  if truthy data_source && negb (str_in (lower (str data_source)) valid_data_sources)
  then
    (Returned
       (JDict [("message", JStr (invalid_data_source_message (lower (str data_source))))])
       422,
     db)
  else insert_lead body db.

Definition _get_lead_by_id (id : Z) (db : DB) : view_result :=
  match first (select_by_id id db) with
  | None =>
      Returned
        (JDict [("params", JDict [("id", JInt id)]);
                ("message", JStr not_found_message)])
        404
  | Some row => Returned (project row) 200
  end.

Definition _modify_lead_with_id (id : Z) (request : Request) (db : DB)
  : view_result * DB :=
  let body := modify_body request in
  match Sql.update (updates_sql body) body id db with
  | (inl e, db') => (Raised e, db')
  | (inr rows, db') =>
      match first rows with
      | None =>
          (Returned
             (JDict [("params", JDict [("id", JInt id)]);
                     ("body", json_of_dict (get_json request));
                     ("message", JStr not_found_message)])
             404,
           db')
      | Some row => (Returned (project row) 200, db')
      end
  end.

Definition _delete_lead_with_id (id : Z) (db : DB) : view_result * DB :=
  match Sql.delete id db with
  | (rows, db') =>
      match first rows with
      | None =>
          (Returned
             (JDict [("params", JDict [("id", JInt id)]);
                     ("message", JStr not_found_message)])
             404,
           db')
      | Some row => (Returned (project row) 200, db')
      end
  end.

Definition unknown_method : view_result :=
  Returned (JDict [("message", JStr "Unknown http method")]) 404.

Section Leads.
(** The collaborators the handler is given.  [parse_pagination_params] is
    the pagination helper of the package: a pair [(page, perpage)], or the
    message of the [ValueError] it raises. *)
Variable parse_pagination_params : Request -> string + (Z * Z).
Variable ts_parse : string -> pasted.
Variable ts_match : string -> value -> bool.
Variable ts_rank : string -> value -> Z.
Variable ts_scan : string -> Z -> Z -> list Row -> list Row.

(** The statement [_get_all_leads] executes: by [id] without a search
    term, the text search with one. *)
Definition leads_query (search : option string) (limit offset : Z) (db : DB)
  : exn + list Row :=
  match search with
  | None => select_page limit offset db
  | Some search => select_search ts_parse ts_match ts_rank ts_scan search limit offset db
  end.

(** The rows the written statement ranges over, in its order, before LIMIT
    and OFFSET cut the page out. *)
Definition ordered_rows (search : option string) (limit offset : Z) (db : DB) : list Row :=
  match search with
  | None => order_by row_id (leads db)
  | Some search => search_rows ts_match ts_rank ts_scan search limit offset db
  end.

Definition _get_all_leads (request : Request) (db : DB) : view_result :=
  match parse_pagination_params request with
  | inl e =>
      Returned
        (JDict [("message", JStr "invalid query parameters");
                ("detail", JDict [("error", JStr e)])])
        400
  | inr (page, perpage) =>
      let search := _parse_search_param request in
      let drop_null := parse_drop_null request in
      let include := parse_include request in
      let limit := perpage in
      let offset := (page - 1) * limit in
      match leads_query search limit offset db with
      | inl e => Raised e
      | inr res =>
          let (response_body, count) := collect_leads include drop_null res in
          Returned (list_response page perpage response_body count) 200
      end
  end.

(** [/leads] *)
Definition leads_collection_view (request : Request) (db : DB) : view_result * DB :=
  match method request with
  | GET => (_get_all_leads request db, db)
  | POST => _create_new_lead request VALID_DATA_SOURCES db
  | _ => (unknown_method, db)
  end.

(** [/leads/<int:id>] *)
Definition lead_view (id : Z) (request : Request) (db : DB) : view_result * DB :=
  match method request with
  | GET => (_get_lead_by_id id db, db)
  | PUT => _modify_lead_with_id id request db
  | DELETE => _delete_lead_with_id id db
  | _ => (unknown_method, db)
  end.
End Leads.


(** The body of the 404 of the item operations that echo nothing. *)
Definition not_found_body (id : Z) : json :=
  JDict [("params", JDict [("id", JInt id)]);
         ("message", JStr "Could not find lead with given id.")].

(** ** Collaborators for the worked examples *)

Module Demo.

Fixpoint digits_value (s : string) (acc : Z) : option Z :=
  match s with
  | EmptyString => Some acc
  | String c t =>
      let n := N_of_ascii c in
      if ((48 <=? n) && (n <=? 57))%N
      then digits_value t (acc * 10 + Z.of_N (n - 48))
      else None
  end.

Definition int_arg (k : string) (default : Z) (request : Request) : string + Z :=
  match args_get k request with
  | None => inr default
  | Some s =>
      match s, digits_value s 0 with
      | String _ _, Some z => inr z
      | _, _ => inl ("invalid literal for int() with base 10: " ++ repr_str s)
      end
  end.

(** Modelled from the spec: the pagination helper is a module of the package
    that is not part of the handler's file.  It turns the query parameters
    into a validated pair (page, per-page) and raises a validation error on
    malformed input; here [page] defaults to 1, [perpage] to 100, and both
    must be decimal numbers from 1 on. *)
Definition parse_pagination_params (request : Request) : string + (Z * Z) :=
  match int_arg "page" 1 request with
  | inl e => inl e
  | inr page =>
      match int_arg "perpage" 100 request with
      | inl e => inl e
      | inr perpage =>
          if (page <? 1) || (perpage <? 1)
          then inl "page and perpage must be positive"
          else inr (page, perpage)
      end
  end.

(** A stand-in for the text search of PostgreSQL under its English
    configuration, for the one-word terms and the names of the worked
    requests; it does not know the query language, and of the stemmer and the
    stop words no more than these requests need. *)
Definition is_letter (c : ascii) : bool :=
  let n := N_of_ascii (ascii_lower c) in ((97 <=? n) && (n <=? 122))%N.

Fixpoint all_letters (s : string) : bool :=
  match s with
  | EmptyString => true
  | String c t => is_letter c && all_letters t
  end.

(** The stem of a lowercased word: of the words used here the stemmer changes
    [acme] alone. *)
Definition stem (w : string) : string :=
  if String.eqb w "acme" then "acm" else w.

(** Of the words used here [other] is a stop word. *)
Definition stop_word (w : string) : bool := String.eqb w "other".

(** [to_tsvector(name)]: the stems of the words of the name that are no stop
    words; NULL has none. *)
Definition lexemes (name : value) : list string :=
  match name with
  | VStr s =>
      map stem (filter (fun w => negb (stop_word w)) (split (ascii_of_nat 32) (lower s)))
  | _ => []
  end.

(** A term of letters only is a query; any other term is refused here. *)
Definition ts_parse (search : string) : pasted :=
  if all_letters search then Query else Other (fun _ _ _ => inl ProgrammingError).

(** [to_tsquery(search)] stems the term; the empty term and a stop word match
    nothing. *)
Definition ts_match (search : string) (name : value) : bool :=
  negb (String.eqb search EmptyString)
  && negb (stop_word (lower search))
  && str_in (stem (lower search)) (lexemes name).

(** ['search'] read as a query keeps the term as it stands; the rank grows
    with the number of places the term has in the name. *)
Definition ts_rank (search : string) (name : value) : Z :=
  Z.of_nat (List.length (filter (String.eqb search) (lexemes name))).

(** The rows are met in table order. *)
Definition ts_scan (search : string) (limit offset : Z) (rows : list Row) : list Row :=
  rows.

(** A row holding the given columns, every other column NULL. *)
Definition lead (id : Z) (cols : dict value) : Row :=
  mkRow id (assign cols (fun _ => VNone)).

(** Three leads, stored out of [id] order. *)
Definition table : DB :=
  mkDB [ lead 3 [("company_name", VStr "Other")];
         lead 1 [("company_name", VStr "Acme Acme Corp"); ("website", VStr "a.org")];
         lead 2 [("company_name", VStr "Acme Corp")] ]
       4.

Definition get (query : list (string * string)) : Request := mkRequest GET query [].
Definition post (body : dict value) : Request := mkRequest POST [] body.
Definition put (body : dict value) : Request := mkRequest PUT [] body.
Definition del : Request := mkRequest DELETE [] [].

(** Three leads for the search requests. *)
Definition banks : DB :=
  mkDB [ lead 1 [("company_name", VStr "Bank Bank Trust")];
         lead 2 [("company_name", VStr "Bank Trust")];
         lead 3 [("company_name", VStr "Acme Corp")] ]
       4.

Definition leads_collection_view :=
  leads_collection_view parse_pagination_params ts_parse ts_match ts_rank ts_scan.

End Demo.

(** ** Facts about the Python data *)

Section PyFacts.
Context {V : Type}.
Implicit Types (d : dict V) (k : string) (v : V).

Lemma str_in_In (x : string) (t : list string) : str_in x t = true <-> In x t.
Proof.
  unfold str_in. rewrite existsb_exists. split.
  - intros [y [Hy E]]. apply String.eqb_eq in E. now subst.
  - intros H. exists x. split; [assumption | apply String.eqb_refl].
Qed.

Lemma str_in_false (x : string) (t : list string) : str_in x t = false <-> ~ In x t.
Proof.
  rewrite <- str_in_In. destruct (str_in x t); split; congruence.
Qed.


Lemma dict_get_None k d : dict_get k d = None <-> ~ In k (keys d).
Proof.
  induction d as [|[k2 v2] t IH]; simpl.
  - tauto.
  - destruct (String.eqb k k2) eqn:E.
    + apply String.eqb_eq in E. subst. split; [discriminate | tauto].
    + apply String.eqb_neq in E. rewrite IH. split.
      * intros H [H1|H1]; [congruence | tauto].
      * tauto.
Qed.

Lemma dict_get_Some_In k v d : dict_get k d = Some v -> In (k, v) d.
Proof.
  induction d as [|[k2 v2] t IH]; simpl; [discriminate|].
  destruct (String.eqb k k2) eqn:E.
  - apply String.eqb_eq in E. intros [= ->]. subst. now left.
  - auto.
Qed.

Lemma In_dict_get k v d : NoDup (keys d) -> In (k, v) d -> dict_get k d = Some v.
Proof.
  induction d as [|[k2 v2] t IH]; simpl; [tauto|].
  intros ND [H|H]; inversion ND; subst.
  - inversion H; subst. now rewrite String.eqb_refl.
  - destruct (String.eqb k k2) eqn:E; [|auto].
    apply String.eqb_eq in E. subst k2.
    exfalso. match goal with H' : ~ In _ _ |- _ => apply H' end.
    unfold keys. change k with (fst (k, v)). now apply in_map.
Qed.



Lemma dict_set_fresh k v d : ~ In k (keys d) -> dict_set k v d = (d ++ [(k, v)])%list.
Proof.
  induction d as [|[k2 v2] t IH]; simpl; [reflexivity|].
  intros H. destruct (String.eqb k k2) eqn:E.
  - apply String.eqb_eq in E. subst. tauto.
  - rewrite IH; tauto.
Qed.



Lemma fold_dict_step_id items : forall d,
  NoDup (keys (d ++ items)%list) -> fold_left dict_step items d = (d ++ items)%list.
Proof.
  induction items as [|[k v] t IH]; simpl; intros d ND.
  - now rewrite app_nil_r.
  - unfold dict_step at 2. simpl.
    assert (Hk : ~ In k (keys d)).
    { unfold keys in ND. rewrite map_app in ND. simpl in ND.
      apply NoDup_remove_2 in ND. intros H. apply ND.
      apply in_or_app. now left. }
    rewrite (dict_set_fresh _ _ _ Hk).
    rewrite IH; rewrite <- app_assoc; simpl; [reflexivity | assumption].
Qed.

(** A comprehension over items of distinct keys is the list of the items. *)
Lemma dict_of_items_id (items : list (string * V)) :
  NoDup (keys items) -> dict_of_items items = items.
Proof. intros ND. apply (fold_dict_step_id items []). exact ND. Qed.

Lemma keys_filter_incl (p : string * V -> bool) d k :
  In k (keys (filter p d)) -> In k (keys d).
Proof.
  unfold keys. rewrite !in_map_iff. intros [x [E H]].
  apply filter_In in H. exists x. tauto.
Qed.

Lemma NoDup_keys_filter (p : string * V -> bool) d :
  NoDup (keys d) -> NoDup (keys (filter p d)).
Proof.
  induction d as [|[k v] t IH]; simpl; intros ND; [constructor|].
  inversion ND; subst.
  destruct (p (k, v)); simpl; [|auto].
  constructor; [|auto].
  intros H. apply keys_filter_incl in H. contradiction.
Qed.

Lemma dict_get_filter (p : string * V -> bool) k d :
  NoDup (keys d) ->
  dict_get k (filter p d) =
  match dict_get k d with
  | Some v => if p (k, v) then Some v else None
  | None => None
  end.
Proof.
  induction d as [|[k2 v2] t IH]; simpl; intros ND; [reflexivity|].
  inversion ND; subst.
  destruct (String.eqb k k2) eqn:E.
  - apply String.eqb_eq in E. subst k2.
    destruct (p (k, v2)); simpl.
    + now rewrite String.eqb_refl.
    + apply dict_get_None. intros H. apply keys_filter_incl in H. contradiction.
  - destruct (p (k2, v2)); simpl; [rewrite E|]; auto.
Qed.

End PyFacts.

(** ** Facts about the table *)

Section OrderBy.
Variable key : Row -> Z.

Lemma insert_by_perm r l : Permutation (insert_by key r l) (r :: l).
Proof.
  induction l as [|x t IH]; simpl; [reflexivity|].
  destruct (key r <=? key x); [reflexivity|].
  rewrite IH. apply perm_swap.
Qed.

Lemma order_by_perm l : Permutation (order_by key l) l.
Proof.
  induction l as [|x t IH]; simpl; [constructor|].
  rewrite insert_by_perm. now constructor.
Qed.

Lemma insert_by_HdRel a r l :
  key_le key a r -> HdRel (key_le key) a l -> HdRel (key_le key) a (insert_by key r l).
Proof.
  intros Har H. destruct l as [|x t]; simpl.
  - now constructor.
  - destruct (key r <=? key x); constructor; [assumption|].
    now inversion H.
Qed.

Lemma insert_by_sorted r l : Sorted (key_le key) l -> Sorted (key_le key) (insert_by key r l).
Proof.
  induction l as [|x t IH]; simpl; intros S.
  - repeat constructor.
  - destruct (key r <=? key x) eqn:E.
    + constructor; [assumption|]. constructor. unfold key_le. lia.
    + inversion S; subst. constructor; [auto|].
      apply insert_by_HdRel; [unfold key_le; lia | assumption].
Qed.

Lemma order_by_sorted l : StronglySorted (key_le key) (order_by key l).
Proof.
  apply Sorted_StronglySorted.
  - intros a b c. unfold key_le. lia.
  - induction l as [|x t IH]; simpl; [constructor|].
    now apply insert_by_sorted.
Qed.
End OrderBy.

Lemma StronglySorted_skipn {A} (R : A -> A -> Prop) n : forall l,
  StronglySorted R l -> StronglySorted R (skipn n l).
Proof.
  induction n as [|n IH]; intros l S; simpl; [assumption|].
  destruct l; [constructor|]. inversion S; subst. auto.
Qed.

Lemma In_firstn {A} (x : A) n : forall l, In x (firstn n l) -> In x l.
Proof.
  induction n as [|n IH]; intros [|y t]; simpl; try tauto.
  intros [H|H]; auto.
Qed.

Lemma StronglySorted_firstn {A} (R : A -> A -> Prop) n : forall l,
  StronglySorted R l -> StronglySorted R (firstn n l).
Proof.
  induction n as [|n IH]; intros l S; simpl; [constructor|].
  destruct l; [constructor|]. inversion S; subst.
  constructor; [auto|].
  rewrite Forall_forall in *. intros y Hy. apply In_firstn in Hy. auto.
Qed.

Lemma select_by_id_none (id : Z) (db : DB) :
  (forall r, In r (leads db) -> row_id r <> id) -> select_by_id id db = [].
Proof.
  unfold select_by_id. induction (leads db) as [|x t IH]; simpl; intros H; [reflexivity|].
  destruct (row_id x =? id) eqn:E.
  - apply Z.eqb_eq in E. exfalso. apply (H x); auto.
  - apply IH. intros r Hr. apply H. auto.
Qed.

Lemma first_select_by_id (id : Z) (db : DB) (r : Row) :
  first (select_by_id id db) = Some r -> In r (leads db) /\ row_id r = id.
Proof.
  unfold first, select_by_id. intros H.
  assert (Hin : In r (filter (fun r => row_id r =? id) (leads db))).
  { destruct (filter _ _); simpl in H; [discriminate|]. injection H as ->. now left. }
  apply filter_In in Hin. destruct Hin as [Hin E]. apply Z.eqb_eq in E. tauto.
Qed.

(** ** Facts about the handlers *)





Lemma In_keys_dict_get {V} (k : string) (d : dict V) :
  In k (keys d) <-> exists v, dict_get k d = Some v.
Proof.
  destruct (dict_get k d) eqn:E.
  - split; [eauto|]. intros _. apply dict_get_Some_In in E.
    unfold keys. change k with (fst (k, v)). now apply in_map.
  - apply dict_get_None in E. split; [tauto|]. intros [v Hv]. discriminate.
Qed.

Lemma collect_leads_fold include drop_null res : forall acc n,
  fold_left
    (fun acc row => ((fst acc ++ [lead_of_row include drop_null row])%list, snd acc + 1))
    res (acc, n)
  = ((acc ++ map (lead_of_row include drop_null) res)%list, n + Z.of_nat (List.length res)).
Proof.
  induction res as [|r t IH]; intros acc n.
  - simpl. now rewrite app_nil_r, Z.add_0_r.
  - cbn [fold_left fst snd map List.length]. rewrite IH, <- app_assoc.
    f_equal. rewrite Nat2Z.inj_succ. lia.
Qed.

(** The loop keeps one lead per row, in order, and counts the rows. *)
Lemma collect_leads_map include drop_null res :
  collect_leads include drop_null res =
  (map (lead_of_row include drop_null) res, Z.of_nat (List.length res)).
Proof. unfold collect_leads. now rewrite collect_leads_fold. Qed.







Lemma modify_body_filter (request : Request) :
  NoDup (keys (get_json request)) ->
  modify_body request = filter modify_keeps (get_json request).
Proof. intros ND. apply dict_of_items_id. now apply NoDup_keys_filter. Qed.

Lemma create_body_filter (request : Request) :
  NoDup (keys (get_json request)) ->
  create_body request = filter create_keeps (get_json request).
Proof. intros ND. apply dict_of_items_id. now apply NoDup_keys_filter. Qed.

Lemma dict_get_modify_body (request : Request) (k : string) :
  NoDup (keys (get_json request)) ->
  dict_get k (modify_body request) =
  match dict_get k (get_json request) with
  | Some v => if modify_keeps (k, v) then Some v else None
  | None => None
  end.
Proof.
  intros ND. rewrite modify_body_filter by assumption. now apply dict_get_filter.
Qed.

Lemma dict_get_create_body (request : Request) (k : string) :
  NoDup (keys (get_json request)) ->
  dict_get k (create_body request) =
  match dict_get k (get_json request) with
  | Some v => if create_keeps (k, v) then Some v else None
  | None => None
  end.
Proof.
  intros ND. rewrite create_body_filter by assumption. now apply dict_get_filter.
Qed.

Lemma modify_keeps_fixed (f : string) (v : value) :
  In f DEFAULT_LEAD_FIELDS -> f <> "id" -> modify_keeps (f, v) = true.
Proof.
  intros H1 H2. unfold modify_keeps. cbn [fst].
  apply String.eqb_neq in H2. apply str_in_In in H1. now rewrite H1, H2.
Qed.

(** A body naming no fixed field besides [id] leaves nothing to update. *)
Lemma modify_body_empty (request : Request) :
  (forall k, In k (keys (get_json request)) -> k = "id" \/ ~ In k DEFAULT_LEAD_FIELDS) ->
  modify_body request = [].
Proof.
  intros H. unfold modify_body.
  replace (filter _ (get_json request)) with (@nil (string * value)); [reflexivity|].
  symmetry. induction (get_json request) as [|[k v] t IH]; simpl; [reflexivity|].
  assert (Hk : k = "id" \/ ~ In k DEFAULT_LEAD_FIELDS) by (apply H; now left).
  assert (E : modify_keeps (k, v) = false).
  { unfold modify_keeps. cbn [fst]. destruct Hk as [->|Hk]; [reflexivity|].
    apply str_in_false in Hk. rewrite Hk. apply andb_false_r. }
  rewrite E. apply IH. intros k' Hk'. apply H. now right.
Qed.

(** A body naming a fixed field besides [id] gives the UPDATE an assignment. *)
Lemma modify_body_nonempty (request : Request) :
  NoDup (keys (get_json request)) ->
  (exists f, In f (keys (get_json request)) /\ f <> "id" /\ In f DEFAULT_LEAD_FIELDS) ->
  exists k rest, keys (modify_body request) = k :: rest.
Proof.
  intros ND [f [H1 [H2 H3]]].
  apply In_keys_dict_get in H1. destruct H1 as [v Hv].
  assert (G : dict_get f (modify_body request) = Some v).
  { rewrite dict_get_modify_body, Hv by assumption.
    now rewrite modify_keeps_fixed. }
  destruct (modify_body request) as [|[k0 v0] t]; [discriminate|].
  now exists k0, (keys t).
Qed.

(** The SET clause of the UPDATE text is empty exactly when the body kept for
    the update has no key. *)
Lemma updates_sql_empty_iff (body : dict value) :
  updates_sql body = EmptyString <-> keys body = [].
Proof.
  unfold updates_sql, join. split.
  - destruct (keys body) as [|k rest]; [reflexivity|].
    simpl. destruct k, rest; simpl; discriminate.
  - intros ->. reflexivity.
Qed.




Lemma getattr_update_row (body : dict value) (r : Row) (f : string) :
  getattr (update_row body r) f =
  if String.eqb f "id" then VInt (row_id r)
  else match dict_get f body with
       | Some v => v
       | None => getattr r f
       end.
Proof.
  unfold getattr, update_row, assign. simpl.
  destruct (String.eqb f "id"); reflexivity.
Qed.

Lemma first_map {A} (f : Row -> A) (l : list Row) :
  hd_error (map f l) = option_map f (first l).
Proof. destruct l; reflexivity. Qed.

(** What the UPDATE of a body with an assignment answers. *)
Lemma modify_lead_run (id : Z) (request : Request) (db : DB) :
  (exists k rest, keys (modify_body request) = k :: rest) ->
  _modify_lead_with_id id request db =
  let body := modify_body request in
  let db' :=
    mkDB (map (fun x => if row_id x =? id then update_row body x else x) (leads db))
         (next_id db) in
  match first (select_by_id id db) with
  | None =>
      (Returned
         (JDict [("params", JDict [("id", JInt id)]);
                 ("body", json_of_dict (get_json request));
                 ("message", JStr not_found_message)])
         404, db')
  | Some r => (Returned (project (update_row body r)) 200, db')
  end.
Proof.
  intros Hk. unfold _modify_lead_with_id, Sql.update.
  assert (E : String.eqb (updates_sql (modify_body request)) EmptyString = false).
  { apply String.eqb_neq. rewrite updates_sql_empty_iff.
    destruct Hk as [k [rest ->]]. discriminate. }
  rewrite E. cbv zeta. unfold first at 1. rewrite first_map.
  destruct (first (select_by_id id db)); reflexivity.
Qed.


Lemma filter_unmatched (id : Z) (l : list Row) :
  (forall r, In r l -> row_id r <> id) ->
  filter (fun r => negb (row_id r =? id)) l = l.
Proof.
  induction l as [|x t IH]; simpl; intros H; [reflexivity|].
  assert (E : (row_id x =? id) = false) by (apply Z.eqb_neq, H; now left).
  rewrite E. simpl. rewrite IH; [reflexivity|]. intros r Hr. apply H. now right.
Qed.

(** ** The item operations *)

(** C8: a PUT whose JSON body is empty, or names no fixed field besides [id],
    leaves the SET clause of the UPDATE text empty; the statement does not
    parse, the handler ends with the database error and the table is as it
    was. *)
Theorem empty_update_is_invalid_sql (id : Z) (request : Request) (db : DB) :
  method request = PUT ->
  (forall k, In k (keys (get_json request)) -> k = "id" \/ ~ In k DEFAULT_LEAD_FIELDS) ->
  updates_sql (modify_body request) = EmptyString
  /\ update_statement (modify_body request) =
       nl ++ "                UPDATE leads" ++
       nl ++ "                SET " ++
       nl ++ "                WHERE id = :id" ++
       nl ++ "                RETURNING *;" ++
       nl ++ "            "
  /\ lead_view id request db = (Raised ProgrammingError, db).
Proof.
  intros Hm Hk. pose proof (modify_body_empty request Hk) as E.
  unfold lead_view, _modify_lead_with_id. rewrite Hm, E.
  repeat split; reflexivity.
Qed.

Lemma empty_update_is_invalid_sql_witness :
  lead_view 1
    (Demo.put [("id", VInt 7); ("nickname", VStr "Acme")])
    (mkDB [Demo.lead 1 [("company_name", VStr "Acme Corp")]] 2)
  = (Raised ProgrammingError, mkDB [Demo.lead 1 [("company_name", VStr "Acme Corp")]] 2).
Proof.
  apply (empty_update_is_invalid_sql 1
           (Demo.put [("id", VInt 7); ("nickname", VStr "Acme")])).
  - reflexivity.
  - simpl. intros k [<-|[<-|[]]].
    + now left.
    + right. simpl. intuition discriminate.
Defined.

(** The answer to a PUT that names a fixed field besides [id], on an id with a
    row. *)
Lemma modify_lead_found (id : Z) (request : Request) (db : DB) (r : Row) :
  method request = PUT ->
  NoDup (keys (get_json request)) ->
  (exists f, In f (keys (get_json request)) /\ f <> "id" /\ In f DEFAULT_LEAD_FIELDS) ->
  first (select_by_id id db) = Some r ->
  lead_view id request db =
    (Returned (project (update_row (modify_body request) r)) 200,
     mkDB (map (fun x => if row_id x =? id then update_row (modify_body request) x else x)
             (leads db))
          (next_id db)).
Proof.
  intros Hm ND Hf Hr. unfold lead_view. rewrite Hm.
  rewrite modify_lead_run by now apply modify_body_nonempty.
  cbv zeta. rewrite Hr. reflexivity.
Qed.




Lemma db_eta (db : DB) : mkDB (leads db) (next_id db) = db.
Proof. destruct db; reflexivity. Qed.




(** ** Null values in the bodies of POST and PUT *)



(** ** Creating a lead *)


Lemma create_keeps_data_source (v : value) :
  create_keeps ("data_source", v) = negb (is_None v).
Proof. reflexivity. Qed.

(** The [data_source] the validation looks at is the one of the JSON body,
    unless that one is null. *)
Lemma body_get_data_source (request : Request) (v : value) :
  NoDup (keys (get_json request)) ->
  dict_get "data_source" (get_json request) = Some v ->
  body_get "data_source" (create_body request) = v.
Proof.
  intros ND H. unfold body_get.
  rewrite dict_get_create_body, H, create_keeps_data_source by assumption.
  destruct v; reflexivity.
Qed.



Section Collection.
Variable parse_pagination_params : Request -> string + (Z * Z).
Variable ts_parse : string -> pasted.
Variable ts_match : string -> value -> bool.
Variable ts_rank : string -> value -> Z.
Variable ts_scan : string -> Z -> Z -> list Row -> list Row.

(** C3 (amended): a POST whose body holds a truthy [data_source] (a
    non-empty string, a non-zero number, [true]) whose lowercased text is
    none of the three valid data sources is answered 422 with a message
    naming the value, and the table is as it was: no INSERT ran. *)
Theorem invalid_data_source_is_422 (request : Request) (db : DB) (v : value) :
  method request = POST ->
  NoDup (keys (get_json request)) ->
  dict_get "data_source" (get_json request) = Some v ->
  truthy v = true ->
  ~ In (lower (str v)) VALID_DATA_SOURCES ->
  leads_collection_view parse_pagination_params ts_parse ts_match ts_rank ts_scan request db =
    (Returned
       (JDict [("message",
                JStr ("Invalid value for the " ++ String dquote "data_source"
                      ++ String dquote " parameter: " ++ repr_str (lower (str v))))])
       422,
     db).
Proof.
  intros Hm ND Hv Ht Hin.
  unfold leads_collection_view. rewrite Hm.
  unfold _create_new_lead. cbv zeta.
  rewrite (body_get_data_source request v ND Hv), Ht.
  apply str_in_false in Hin. rewrite Hin. reflexivity.
Qed.

End Collection.

Lemma invalid_data_source_is_422_witness :
  let db := mkDB [Demo.lead 1 [("company_name", VStr "Acme Corp")]] 2 in
  Demo.leads_collection_view (Demo.post [("data_source", VStr "Invalid_Value")]) db =
    (Returned
       (JDict [("message",
                JStr ("Invalid value for the " ++ String dquote "data_source"
                      ++ String dquote " parameter: 'invalid_value'"))])
       422,
     db).
Proof.
  intros db.
  refine (invalid_data_source_is_422 Demo.parse_pagination_params Demo.ts_parse Demo.ts_match Demo.ts_rank Demo.ts_scan
            (Demo.post [("data_source", VStr "Invalid_Value")]) db
            (VStr "Invalid_Value") eq_refl _ eq_refl eq_refl _).
  - repeat constructor; simpl; tauto.
  - simpl. intuition discriminate.
Defined.

(** C3 as stated fails on the empty string: its lowercased form is none of the
    valid data sources, and yet the answer is 200 and a row is added. *)
Lemma empty_data_source_counterexample :
  let db := mkDB [Demo.lead 1 [("company_name", VStr "Acme Corp")]] 2 in
  let answer := Demo.leads_collection_view (Demo.post [("data_source", VStr "")]) db in
  ~ In (lower (str (VStr ""))) VALID_DATA_SOURCES
  /\ status_of (fst answer) = Some 200
  /\ List.length (leads (snd answer)) = S (List.length (leads db))
  /\ status_of (fst answer) <> Some 422.
Proof.
  repeat split; try discriminate. simpl. intuition discriminate.
Qed.


(** ** Listing and searching leads *)

Lemma row_count_true (n : Z) : 0 <= n <= bigint_max -> row_count n = true.
Proof.
  intros [H1 H2]. unfold row_count. apply andb_true_intro.
  split; now apply Z.leb_le.
Qed.

Lemma limit_offset_page (limit offset : Z) (l : list Row) :
  0 <= limit <= bigint_max -> 0 <= offset <= bigint_max ->
  limit_offset limit offset l = inr (page_rows limit offset l).
Proof.
  intros H1 H2. unfold limit_offset.
  now rewrite (row_count_true limit H1), (row_count_true offset H2).
Qed.

Lemma page_rows_length (limit offset : Z) (l : list Row) :
  (List.length (page_rows limit offset l) <= Z.to_nat limit)%nat.
Proof. unfold page_rows. apply firstn_le_length. Qed.

Lemma page_rows_sorted (R : Row -> Row -> Prop) (limit offset : Z) (l : list Row) :
  StronglySorted R l -> StronglySorted R (page_rows limit offset l).
Proof.
  intros S. unfold page_rows. now apply StronglySorted_firstn, StronglySorted_skipn.
Qed.


Section Listing.
Variable parse_pagination_params : Request -> string + (Z * Z).
Variable ts_parse : string -> pasted.
Variable ts_match : string -> value -> bool.
Variable ts_rank : string -> value -> Z.
Variable ts_scan : string -> Z -> Z -> list Row -> list Row.

Lemma leads_query_ordered (search : option string) (limit offset : Z) (db : DB) :
  written_query ts_parse search ->
  leads_query ts_parse ts_match ts_rank ts_scan search limit offset db =
  limit_offset limit offset (ordered_rows ts_match ts_rank ts_scan search limit offset db).
Proof.
  destruct search as [search|]; simpl; intros H; [|reflexivity].
  unfold select_search. now rewrite H.
Qed.

(** With a LIMIT and an OFFSET the database takes, and the statement that is
    written, the statement runs and the handler answers 200 with one lead per
    row of the page. *)
Lemma get_all_leads_run (request : Request) (db : DB) (page perpage : Z) :
  method request = GET ->
  parse_pagination_params request = inr (page, perpage) ->
  0 <= perpage <= bigint_max -> 0 <= (page - 1) * perpage <= bigint_max ->
  written_query ts_parse (_parse_search_param request) ->
  let rows :=
    page_rows perpage ((page - 1) * perpage)
      (ordered_rows ts_match ts_rank ts_scan (_parse_search_param request)
         perpage ((page - 1) * perpage) db) in
  leads_query ts_parse ts_match ts_rank ts_scan (_parse_search_param request)
    perpage ((page - 1) * perpage) db = inr rows
  /\ leads_collection_view parse_pagination_params ts_parse ts_match ts_rank ts_scan
       request db =
       (Returned
          (list_response page perpage
             (map (lead_of_row (parse_include request) (parse_drop_null request)) rows)
             (Z.of_nat (List.length rows)))
          200,
        db).
Proof.
  intros Hm Hp H1 H2 Hw rows.
  assert (Hq : leads_query ts_parse ts_match ts_rank ts_scan (_parse_search_param request)
                 perpage ((page - 1) * perpage) db = inr rows).
  { rewrite leads_query_ordered by assumption. now apply limit_offset_page. }
  split; [assumption|].
  unfold leads_collection_view. rewrite Hm.
  unfold _get_all_leads. rewrite Hp. cbv zeta.
  rewrite Hq, collect_leads_map. reflexivity.
Qed.

Lemma valid_page_bounds (page perpage : Z) :
  1 <= page -> 1 <= perpage ->
  perpage <= bigint_max -> (page - 1) * perpage <= bigint_max ->
  0 <= perpage <= bigint_max /\ 0 <= (page - 1) * perpage <= bigint_max.
Proof. nia. Qed.

(** C5 (amended): without a search term, with [page >= 1] and [perpage >= 1],
    and with LIMIT [perpage] and OFFSET [(page - 1) * perpage] within
    [bigint], the rows are those of the table in ascending [id]; the page
    skips [(page - 1) * perpage] of them and holds at most [perpage]; the
    answer is 200, its [leads] hold one lead per row of the page, its [count]
    is their number and its [query] the page and the page size. *)
Theorem list_page_by_id (request : Request) (db : DB) (page perpage : Z) :
  method request = GET ->
  parse_pagination_params request = inr (page, perpage) ->
  1 <= page -> 1 <= perpage ->
  perpage <= bigint_max -> (page - 1) * perpage <= bigint_max ->
  _parse_search_param request = None ->
  let sorted := order_by row_id (leads db) in
  let rows :=
    firstn (Z.to_nat perpage) (skipn (Z.to_nat ((page - 1) * perpage)) sorted) in
  let response_body :=
    map (lead_of_row (parse_include request) (parse_drop_null request)) rows in
  leads_collection_view parse_pagination_params ts_parse ts_match ts_rank ts_scan request db =
    (Returned
       (JDict [("count", JInt (Z.of_nat (List.length response_body)));
               ("query", JDict [("page", JInt page); ("perpage", JInt perpage)]);
               ("leads", JList (map json_of_dict response_body))])
       200,
     db)
  /\ StronglySorted (key_le row_id) sorted
  /\ Permutation sorted (leads db)
  /\ (List.length response_body <= Z.to_nat perpage)%nat.
Proof.
  intros Hm Hp H1 H2 H3 H4 Hs sorted rows response_body.
  destruct (valid_page_bounds page perpage H1 H2 H3 H4) as [B1 B2].
  assert (Hw : written_query ts_parse (_parse_search_param request))
    by (rewrite Hs; exact I).
  destruct (get_all_leads_run request db page perpage Hm Hp B1 B2 Hw) as [_ Hrun].
  rewrite Hs in Hrun. cbv zeta in Hrun. simpl ordered_rows in Hrun.
  repeat split.
  - rewrite Hrun. unfold response_body, list_response. rewrite length_map. reflexivity.
  - apply order_by_sorted.
  - apply order_by_perm.
  - unfold response_body. rewrite length_map. apply firstn_le_length.
Qed.

(** C1 (what the code does): for a search term that is a query, the statement
    orders by rank with no direction written, so the leads of the answer
    stand in ascending rank: of two returned leads whose names differ in rank
    for the term, the one of lower rank comes first, not the higher-ranked
    match. *)
Theorem search_results_ascend_in_rank
    (request : Request) (db : DB) (page perpage : Z) (search : string) :
  method request = GET ->
  parse_pagination_params request = inr (page, perpage) ->
  0 <= perpage <= bigint_max -> 0 <= (page - 1) * perpage <= bigint_max ->
  _parse_search_param request = Some search ->
  ts_parse search = Query ->
  exists rows,
    leads_collection_view parse_pagination_params ts_parse ts_match ts_rank ts_scan request db =
      (Returned
         (JDict [("count", JInt (Z.of_nat (List.length rows)));
                 ("query", JDict [("page", JInt page); ("perpage", JInt perpage)]);
                 ("leads",
                  JList
                    (map json_of_dict
                       (map (lead_of_row (parse_include request) (parse_drop_null request))
                          rows)))])
         200,
       db)
    /\ StronglySorted (key_le (fun r => ts_rank search (getattr r "company_name"))) rows.
Proof.
  intros Hm Hp H1 H2 Hs Hq.
  assert (Hw : written_query ts_parse (_parse_search_param request))
    by (rewrite Hs; exact Hq).
  destruct (get_all_leads_run request db page perpage Hm Hp H1 H2 Hw) as [_ Hrun].
  eexists. split; [exact Hrun|].
  rewrite Hs. apply page_rows_sorted. simpl. apply order_by_sorted.
Qed.
End Listing.

Section Fields.
Variable parse_pagination_params : Request -> string + (Z * Z).
Variable ts_parse : string -> pasted.
Variable ts_match : string -> value -> bool.
Variable ts_rank : string -> value -> Z.
Variable ts_scan : string -> Z -> Z -> list Row -> list Row.


End Fields.

(** ** Worked requests *)

Lemma list_page_by_id_witness :
  Demo.leads_collection_view
    (Demo.get [("page", "2"); ("perpage", "2"); ("include", "id")]) Demo.table
  = (Returned
       (JDict [("count", JInt 1);
               ("query", JDict [("page", JInt 2); ("perpage", JInt 2)]);
               ("leads", JList [JDict [("id", JInt 3)]])])
       200,
     Demo.table).
Proof.
  refine (proj1 (list_page_by_id
                   Demo.parse_pagination_params Demo.ts_parse Demo.ts_match Demo.ts_rank
                   Demo.ts_scan
                   (Demo.get [("page", "2"); ("perpage", "2"); ("include", "id")])
                   Demo.table 2 2 eq_refl eq_refl _ _ _ _ eq_refl));
    unfold bigint_max; lia.
Defined.

(** C5 as stated fails on a page size from 2^63 on: [page] and [perpage] are
    at least 1, there is no search term, and the statement is refused, its
    LIMIT being no [bigint]. *)
Lemma list_page_beyond_bigint_counterexample :
  let request := Demo.get [("page", "1"); ("perpage", "9223372036854775808")] in
  Demo.parse_pagination_params request = inr (1, 9223372036854775808)
  /\ 1 <= 1
  /\ 1 <= 9223372036854775808
  /\ _parse_search_param request = None
  /\ Demo.leads_collection_view request Demo.table = (Raised DataError, Demo.table).
Proof. repeat split; try reflexivity; lia. Qed.

Lemma search_results_ascend_in_rank_witness :
  let request :=
    Demo.get [("page", "1"); ("perpage", "10"); ("search", "bank"); ("include", "id")] in
  exists rows,
    Demo.leads_collection_view request Demo.banks
    = (Returned
         (JDict [("count", JInt (Z.of_nat (List.length rows)));
                 ("query", JDict [("page", JInt 1); ("perpage", JInt 10)]);
                 ("leads",
                  JList (map json_of_dict (map (lead_of_row ["id"] false) rows)))])
         200,
       Demo.banks)
    /\ StronglySorted
         (key_le (fun r => Demo.ts_rank "bank" (getattr r "company_name"))) rows.
Proof.
  intros request.
  refine (search_results_ascend_in_rank
            Demo.parse_pagination_params Demo.ts_parse Demo.ts_match Demo.ts_rank
            Demo.ts_scan
            request Demo.banks 1 10 "bank" eq_refl eq_refl _ _ eq_refl eq_refl);
    unfold bigint_max; lia.
Defined.

(** The answer to that request: the name with the term once (rank 1 here, id
    2) stands before the name with the term twice (rank 2 here, id 1). *)
Example search_bank_answer :
  Demo.ts_rank "bank" (VStr "Bank Bank Trust") = 2
  /\ Demo.ts_rank "bank" (VStr "Bank Trust") = 1
  /\ Demo.leads_collection_view
       (Demo.get [("page", "1"); ("perpage", "10"); ("search", "bank"); ("include", "id")])
       Demo.banks
     = (Returned
          (JDict [("count", JInt 2);
                  ("query", JDict [("page", JInt 1); ("perpage", JInt 10)]);
                  ("leads", JList [JDict [("id", JInt 2)]; JDict [("id", JInt 1)]])])
          200,
        Demo.banks).
Proof. repeat split. Qed.

(** A term the stemmer changes has rank 0 in every name, read as it stands. *)
Example search_acme_ranks :
  Demo.ts_match "acme" (VStr "Acme Acme Corp") = true
  /\ Demo.ts_rank "acme" (VStr "Acme Acme Corp") = 0
  /\ Demo.ts_rank "acme" (VStr "Acme Corp") = 0.
Proof. repeat split. Qed.





(** ** The Python helpers on small inputs *)

Example lower_mixed : lower "Company_Name" = "company_name".
Proof. reflexivity. Qed.

Example split_include : split comma "id,,Phone, email" = ["id"; ""; "Phone"; " email"].
Proof. reflexivity. Qed.

Example split_empty : split comma "" = [""].
Proof. reflexivity. Qed.

Example strip_blanks : strip "  a b " = "a b".
Proof. reflexivity. Qed.

Example str_int : str (VInt (-42)) = "-42" /\ str (VInt 0) = "0".
Proof. split; reflexivity. Qed.

Example repr_plain : repr_str "invalid_value" = "'invalid_value'".
Proof. reflexivity. Qed.

Example include_pieces :
  parse_include (Demo.get [("include", "ID,Website, phone,nickname,id")])
  = ["id"; "website"; "id"].
Proof. reflexivity. Qed.

Example lead_keys_once :
  lead_of_row ["id"; "website"; "id"] false
    (Demo.lead 1 [("website", VStr "a.org")])
  = [("id", VInt 1); ("website", VStr "a.org")].
Proof. reflexivity. Qed.

Example pagination_rejects : Demo.parse_pagination_params (Demo.get [("page", "x")])
  = inl "invalid literal for int() with base 10: 'x'".
Proof. reflexivity. Qed.

Example delete_then_get :
  let db' := snd (lead_view 2 Demo.del Demo.table) in
  status_of (fst (lead_view 2 Demo.del Demo.table)) = Some 200
  /\ status_of (fst (lead_view 2 (Demo.get []) db')) = Some 404.
Proof. split; reflexivity. Qed.


(** * Further properties of the handlers *)

(** ** Rows and their projection *)

Lemma filter_id_none (id : Z) (l : list Row) :
  (forall r, In r l -> row_id r <> id) -> filter (fun r => row_id r =? id) l = [].
Proof. intros H. exact (select_by_id_none id (mkDB l 0) H). Qed.


(** Under the primary key, the rows of an id are the one row that has it. *)
Lemma select_by_id_unique (db : DB) (r : Row) :
  NoDup (map row_id (leads db)) -> In r (leads db) ->
  select_by_id (row_id r) db = [r].
Proof.
  unfold select_by_id. induction (leads db) as [|x t IH]; simpl; intros ND Hin; [contradiction|].
  inversion ND as [|? ? Hx NDt]; subst. destruct Hin as [->|Hin].
  - rewrite Z.eqb_refl. f_equal. apply filter_id_none.
    intros y Hy E. apply Hx. rewrite <- E. now apply in_map.
  - destruct (row_id x =? row_id r) eqn:E; [|auto].
    apply Z.eqb_eq in E. exfalso. apply Hx. rewrite E. now apply in_map.
Qed.

(** The projection lists the 23 fixed fields in their order, each with the
    row's value. *)
Lemma project_fields (r : Row) :
  project r =
  JDict (map (fun f => (f, json_of_value (getattr r f))) DEFAULT_LEAD_FIELDS).
Proof. reflexivity. Qed.

Lemma project_ext (r r' : Row) :
  (forall f, In f DEFAULT_LEAD_FIELDS -> getattr r f = getattr r' f) ->
  project r = project r'.
Proof.
  intros H. rewrite !project_fields. f_equal.
  apply map_ext_in. intros f Hf. now rewrite (H f Hf).
Qed.

Lemma select_by_id_updated (body : dict value) (id : Z) (l : list Row) (n : Z) :
  select_by_id id
    (mkDB (map (fun x => if row_id x =? id then update_row body x else x) l) n)
  = map (update_row body) (select_by_id id (mkDB l n)).
Proof.
  unfold select_by_id. simpl. induction l as [|x t IH]; simpl; [reflexivity|].
  destruct (row_id x =? id) eqn:E; simpl; rewrite E, IH; reflexivity.
Qed.

Lemma getattr_update_row_twice (body : dict value) (r : Row) (f : string) :
  getattr (update_row body (update_row body r)) f = getattr (update_row body r) f.
Proof.
  rewrite !getattr_update_row. simpl.
  destruct (String.eqb f "id"); [reflexivity|].
  destruct (dict_get f body); reflexivity.
Qed.

(** ** Reading, updating and deleting one lead *)

(** X1: on a table with unique ids, GET /leads/{id} for the id of a row
    answers 200 with the 23 fixed fields in their order, each with that row's
    value, and leaves the table as it is. *)
Theorem get_returns_the_row (id : Z) (request : Request) (db : DB) (r : Row) :
  method request = GET ->
  NoDup (map row_id (leads db)) ->
  In r (leads db) -> row_id r = id ->
  lead_view id request db =
    (Returned
       (JDict (map (fun f => (f, json_of_value (getattr r f))) DEFAULT_LEAD_FIELDS))
       200,
     db).
Proof.
  intros Hm ND Hin <-. unfold lead_view, _get_lead_by_id. rewrite Hm.
  rewrite (select_by_id_unique db r ND Hin). reflexivity.
Qed.

Lemma get_returns_the_row_witness :
  fst (lead_view 2 (Demo.get []) Demo.table)
  = Returned (project (Demo.lead 2 [("company_name", VStr "Acme Corp")])) 200.
Proof.
  refine (f_equal fst
            (get_returns_the_row 2 (Demo.get []) Demo.table
               (Demo.lead 2 [("company_name", VStr "Acme Corp")]) eq_refl _ _ eq_refl)).
  - simpl. repeat constructor; simpl; intuition discriminate.
  - simpl. tauto.
Defined.

(** X2: DELETE /leads/{id} for an id with a row answers 200 with the
    projection of that row and removes the rows of that id and no other; a
    GET or a DELETE of the same id afterwards is answered 404. *)
Theorem delete_removes_the_lead (id : Z) (request : Request) (db : DB) (r : Row) :
  method request = DELETE ->
  first (select_by_id id db) = Some r ->
  let db' := snd (lead_view id request db) in
  fst (lead_view id request db) = Returned (project r) 200
  /\ leads db' = filter (fun x => negb (row_id x =? id)) (leads db)
  /\ (forall x, In x (leads db') <-> In x (leads db) /\ row_id x <> id)
  /\ (forall again, method again = GET \/ method again = DELETE ->
        lead_view id again db' = (Returned (not_found_body id) 404, db')).
Proof.
  intros Hm Hr db'.
  assert (Hrun : lead_view id request db =
                 (Returned (project r) 200,
                  mkDB (filter (fun x => negb (row_id x =? id)) (leads db)) (next_id db))).
  { unfold lead_view, _delete_lead_with_id, Sql.delete. rewrite Hm, Hr. reflexivity. }
  assert (Hgone : forall x, In x (leads db') -> row_id x <> id).
  { unfold db'. rewrite Hrun. simpl. intros x Hx. apply filter_In in Hx.
    destruct Hx as [_ Hx]. apply negb_true_iff, Z.eqb_neq in Hx. assumption. }
  repeat split.
  - now rewrite Hrun.
  - unfold db'. now rewrite Hrun.
  - unfold db' in H. rewrite Hrun in H. simpl in H. apply filter_In in H. tauto.
  - now apply Hgone.
  - intros [Hx Hne]. unfold db'. rewrite Hrun. simpl. apply filter_In.
    split; [assumption|]. now apply negb_true_iff, Z.eqb_neq.
  - intros again Hagain.
    pose proof (select_by_id_none id db' Hgone) as E.
    unfold lead_view. destruct Hagain as [Ha|Ha]; rewrite Ha.
    + unfold _get_lead_by_id. rewrite E. reflexivity.
    + unfold _delete_lead_with_id, Sql.delete. rewrite E. simpl.
      rewrite filter_unmatched by assumption. now rewrite db_eta.
Qed.

Lemma delete_removes_the_lead_witness :
  let db' := snd (lead_view 2 Demo.del Demo.table) in
  map row_id (leads db') = [3; 1]
  /\ fst (lead_view 2 (Demo.get []) db') = Returned (not_found_body 2) 404.
Proof.
  intros db'.
  destruct (delete_removes_the_lead 2 Demo.del Demo.table
              (Demo.lead 2 [("company_name", VStr "Acme Corp")]) eq_refl eq_refl)
    as [_ [Hleads [_ Hagain]]].
  split.
  - unfold db'. rewrite Hleads. reflexivity.
  - unfold db'. rewrite (Hagain (Demo.get []) (or_introl eq_refl)). reflexivity.
Defined.



(** X4: sending the same PUT twice answers the second time what it answered
    the first time, and every row projects after the second PUT as it did
    after the first. *)
Theorem modify_twice (id : Z) (put : Request) (db : DB) (r : Row) :
  method put = PUT ->
  NoDup (keys (get_json put)) ->
  (exists f, In f (keys (get_json put)) /\ f <> "id" /\ In f DEFAULT_LEAD_FIELDS) ->
  first (select_by_id id db) = Some r ->
  let once := lead_view id put db in
  let twice := lead_view id put (snd once) in
  fst twice = fst once
  /\ map project (leads (snd twice)) = map project (leads (snd once)).
Proof.
  intros Hp ND Hf Hr once twice.
  assert (Honce : once =
                  (Returned (project (update_row (modify_body put) r)) 200,
                   mkDB (map (fun x => if row_id x =? id
                                       then update_row (modify_body put) x else x)
                           (leads db))
                        (next_id db)))
    by now apply modify_lead_found.
  assert (Hfound : first (select_by_id id (snd once)) = Some (update_row (modify_body put) r)).
  { rewrite Honce. simpl snd. rewrite select_by_id_updated.
    change (select_by_id id (mkDB (leads db) (next_id db))) with (select_by_id id db).
    unfold first in *. destruct (select_by_id id db) as [|x t]; [discriminate|].
    simpl in Hr. injection Hr as ->. reflexivity. }
  unfold twice. rewrite (modify_lead_found id put (snd once) _ Hp ND Hf Hfound).
  simpl fst. simpl snd. split.
  - rewrite Honce. simpl fst. f_equal. apply project_ext.
    intros f _. apply getattr_update_row_twice.
  - rewrite Honce. simpl snd. simpl leads. rewrite !map_map.
    apply map_ext. intros x. cbv beta. destruct (row_id x =? id) eqn:E.
    + change (row_id (update_row (modify_body put) x)) with (row_id x). rewrite E.
      apply project_ext. intros f _. apply getattr_update_row_twice.
    + now rewrite E.
Qed.

Lemma modify_twice_witness :
  let once := lead_view 1 (Demo.put [("phone", VStr "555")]) Demo.table in
  let twice := lead_view 1 (Demo.put [("phone", VStr "555")]) (snd once) in
  fst twice = fst once
  /\ map project (leads (snd twice)) = map project (leads (snd once)).
Proof.
  intros once twice.
  refine (modify_twice 1 (Demo.put [("phone", VStr "555")]) Demo.table
            (Demo.lead 1 [("company_name", VStr "Acme Acme Corp"); ("website", VStr "a.org")])
            eq_refl _ _ eq_refl).
  - repeat constructor; simpl; tauto.
  - exists "phone". simpl. intuition discriminate.
Defined.

(** ** Creating a lead: what is kept, what is refused *)

(** A body holding no fixed field besides [id] with a value other than null
    leaves nothing to insert. *)
Lemma create_body_empty (request : Request) :
  (forall k v, In (k, v) (get_json request) ->
     k = "id" \/ ~ In k DEFAULT_LEAD_FIELDS \/ v = VNone) ->
  create_body request = [].
Proof.
  intros H. unfold create_body.
  replace (filter create_keeps (get_json request)) with (@nil (string * value));
    [reflexivity|].
  symmetry. induction (get_json request) as [|[k v] t IH]; simpl; [reflexivity|].
  assert (E : create_keeps (k, v) = false).
  { unfold create_keeps. cbn [fst snd].
    destruct (H k v (or_introl eq_refl)) as [->|[Hk| ->]].
    - reflexivity.
    - apply str_in_false in Hk. rewrite Hk. now rewrite andb_false_r.
    - apply andb_false_r. }
  rewrite E. apply IH. intros k' v' Hin. apply H. now right.
Qed.

(** The decimal text of an integer is none of the valid data sources. *)
Lemma decimal_is_no_data_source (z : Z) : ~ In (lower (str (VInt z))) VALID_DATA_SOURCES.
Proof.
  unfold str. destruct (Z.to_int z) as [d|d]; destruct d; simpl; intuition discriminate.
Qed.

Lemma truthy_not_None (v : value) : truthy v = true -> v <> VNone.
Proof. intros H ->. discriminate. Qed.

(** The value the validation of [_create_new_lead] looks at. *)
Lemma body_get_data_source_absent (request : Request) :
  NoDup (keys (get_json request)) ->
  dict_get "data_source" (get_json request) = None ->
  body_get "data_source" (create_body request) = VNone.
Proof.
  intros ND H. unfold body_get. now rewrite dict_get_create_body, H.
Qed.

Lemma insert_lead_status (body : dict value) (db : DB) :
  status_of (fst (insert_lead body db)) <> Some 422.
Proof.
  unfold insert_lead, Sql.insert.
  destruct (String.eqb (insert_columns_sql body) EmptyString); simpl; discriminate.
Qed.


Section Creating.
Variable parse_pagination_params : Request -> string + (Z * Z).
Variable ts_parse : string -> pasted.
Variable ts_match : string -> value -> bool.
Variable ts_rank : string -> value -> Z.
Variable ts_scan : string -> Z -> Z -> list Row -> list Row.

(** The two ways [_create_new_lead] ends, by the [data_source] of the JSON
    body. *)
Lemma create_run (request : Request) (db : DB) :
  method request = POST ->
  NoDup (keys (get_json request)) ->
  leads_collection_view parse_pagination_params ts_parse ts_match ts_rank ts_scan request db =
  match dict_get "data_source" (get_json request) with
  | Some v =>
      if truthy v && negb (str_in (lower (str v)) VALID_DATA_SOURCES)
      then (Returned
              (JDict [("message", JStr (invalid_data_source_message (lower (str v))))])
              422, db)
      else insert_lead (create_body request) db
  | None => insert_lead (create_body request) db
  end.
Proof.
  intros Hm ND. unfold leads_collection_view. rewrite Hm.
  unfold _create_new_lead. cbv zeta.
  destruct (dict_get "data_source" (get_json request)) as [v|] eqn:E.
  - now rewrite (body_get_data_source request v ND E).
  - now rewrite (body_get_data_source_absent request ND E).
Qed.

(** X5: a POST whose body holds no fixed field besides [id] with a value other
    than null (the empty body, unknown keys, nulls) leaves the column list of
    the INSERT text empty; the statement does not parse, the handler ends
    with the database error and no row is added. *)
Theorem empty_insert_is_invalid_sql (request : Request) (db : DB) :
  method request = POST ->
  (forall k v, In (k, v) (get_json request) ->
     k = "id" \/ ~ In k DEFAULT_LEAD_FIELDS \/ v = VNone) ->
  insert_columns_sql (create_body request) = EmptyString
  /\ insert_placeholders_sql (create_body request) = EmptyString
  /\ leads_collection_view parse_pagination_params ts_parse ts_match ts_rank ts_scan request db =
       (Raised ProgrammingError, db).
Proof.
  intros Hm Hk. pose proof (create_body_empty request Hk) as E.
  unfold leads_collection_view, _create_new_lead. rewrite Hm, E.
  repeat split; reflexivity.
Qed.

(** X6: a POST is answered 422 exactly when its body holds a truthy
    [data_source] whose lowercased text is none of the valid data sources; a
    valid, falsy or absent [data_source] is never refused. *)
Theorem refused_iff_invalid_data_source (request : Request) (db : DB) :
  method request = POST ->
  NoDup (keys (get_json request)) ->
  status_of (fst (leads_collection_view parse_pagination_params ts_parse ts_match ts_rank ts_scan request db))
    = Some 422
  <-> exists v, dict_get "data_source" (get_json request) = Some v
                /\ truthy v = true
                /\ ~ In (lower (str v)) VALID_DATA_SOURCES.
Proof.
  intros Hm ND. rewrite (create_run request db Hm ND).
  destruct (dict_get "data_source" (get_json request)) as [v|].
  - destruct (truthy v) eqn:Ht;
      destruct (str_in (lower (str v)) VALID_DATA_SOURCES) eqn:Hin;
      cbn [andb negb]; split.
    + intros H. now apply insert_lead_status in H.
    + intros [w [[= <-] [_ Hw]]]. apply str_in_In in Hin. contradiction.
    + intros _. exists v. apply str_in_false in Hin. auto.
    + reflexivity.
    + intros H. now apply insert_lead_status in H.
    + intros [w [[= <-] [Hw _]]]. congruence.
    + intros H. now apply insert_lead_status in H.
    + intros [w [[= <-] [Hw _]]]. congruence.
  - split.
    + intros H. now apply insert_lead_status in H.
    + intros [w [Hw _]]. discriminate.
Qed.

(** X7: a [data_source] that is a non-zero number or [true] is always
    refused with 422, and no row is added. *)
Theorem non_string_data_source_is_refused (request : Request) (db : DB) (v : value) :
  method request = POST ->
  NoDup (keys (get_json request)) ->
  dict_get "data_source" (get_json request) = Some v ->
  truthy v = true ->
  (forall s, v <> VStr s) ->
  leads_collection_view parse_pagination_params ts_parse ts_match ts_rank ts_scan request db =
    (Returned
       (JDict [("message", JStr (invalid_data_source_message (lower (str v))))]) 422,
     db).
Proof.
  intros Hm ND Hv Ht Hs. rewrite (create_run request db Hm ND), Hv, Ht.
  assert (Hin : str_in (lower (str v)) VALID_DATA_SOURCES = false).
  { apply str_in_false. destruct v as [|[]|z|s].
    - discriminate.
    - simpl. intuition discriminate.
    - discriminate.
    - apply decimal_is_no_data_source.
    - now destruct (Hs s). }
  now rewrite Hin.
Qed.

End Creating.

Lemma empty_insert_is_invalid_sql_witness :
  Demo.leads_collection_view
    (Demo.post [("id", VInt 9); ("nickname", VStr "Acme"); ("phone", VNone)]) Demo.table
  = (Raised ProgrammingError, Demo.table).
Proof.
  apply (empty_insert_is_invalid_sql
           Demo.parse_pagination_params Demo.ts_parse Demo.ts_match Demo.ts_rank Demo.ts_scan
           (Demo.post [("id", VInt 9); ("nickname", VStr "Acme"); ("phone", VNone)])).
  - reflexivity.
  - simpl. intros k v [[= <- <-]|[[= <- <-]|[[= <- <-]|[]]]].
    + now left.
    + right. left. simpl. intuition discriminate.
    + right. now right.
Defined.

Lemma refused_iff_invalid_data_source_witness :
  status_of
    (fst (Demo.leads_collection_view (Demo.post [("data_source", VStr "Nope")])
            Demo.table))
  = Some 422.
Proof.
  apply (refused_iff_invalid_data_source
           Demo.parse_pagination_params Demo.ts_parse Demo.ts_match Demo.ts_rank Demo.ts_scan
           (Demo.post [("data_source", VStr "Nope")]) Demo.table eq_refl).
  - repeat constructor; simpl; tauto.
  - exists (VStr "Nope"). repeat split. simpl. intuition discriminate.
Defined.

Lemma non_string_data_source_is_refused_witness :
  Demo.leads_collection_view (Demo.post [("data_source", VInt 7)]) Demo.table
  = (Returned
       (JDict [("message",
                JStr ("Invalid value for the " ++ String dquote "data_source"
                      ++ String dquote " parameter: '7'"))])
       422,
     Demo.table).
Proof.
  refine (non_string_data_source_is_refused
            Demo.parse_pagination_params Demo.ts_parse Demo.ts_match Demo.ts_rank Demo.ts_scan
            (Demo.post [("data_source", VInt 7)]) Demo.table (VInt 7)
            eq_refl _ eq_refl eq_refl _).
  - repeat constructor; simpl; tauto.
  - discriminate.
Defined.


(** ** What the views keep *)









Section Keeping.
Variable parse_pagination_params : Request -> string + (Z * Z).
Variable ts_parse : string -> pasted.
Variable ts_match : string -> value -> bool.
Variable ts_rank : string -> value -> Z.
Variable ts_scan : string -> Z -> Z -> list Row -> list Row.

End Keeping.




Section Failing.
Variable parse_pagination_params : Request -> string + (Z * Z).
Variable ts_parse : string -> pasted.
Variable ts_match : string -> value -> bool.
Variable ts_rank : string -> value -> Z.
Variable ts_scan : string -> Z -> Z -> list Row -> list Row.

End Failing.


(** ** Pages *)

Lemma In_skipn {A} (x : A) n : forall l, In x (skipn n l) -> In x l.
Proof.
  induction n as [|n IH]; intros [|y t]; simpl; try tauto.
  intros H. right. now apply IH.
Qed.

Lemma In_page_rows (r : Row) (limit offset : Z) (l : list Row) :
  In r (page_rows limit offset l) -> In r l.
Proof. unfold page_rows. intros H. now apply In_firstn, In_skipn in H. Qed.

Lemma firstn_add {A} (a b : nat) : forall l : list A,
  firstn (a + b) l = (firstn a l ++ firstn b (skipn a l))%list.
Proof.
  induction a as [|a IH]; intros l; simpl; [reflexivity|].
  destruct l as [|x t]; simpl.
  - now rewrite firstn_nil.
  - now rewrite IH.
Qed.

(** A page followed by the page after it is the page of twice the size. *)
Lemma page_rows_next (limit offset : Z) (l : list Row) :
  0 <= limit -> 0 <= offset ->
  (page_rows limit offset l ++ page_rows limit (offset + limit) l)%list
  = page_rows (limit + limit) offset l.
Proof.
  intros H1 H2. unfold page_rows.
  rewrite !Z2Nat.inj_add by assumption.
  rewrite firstn_add, skipn_skipn.
  now rewrite (Nat.add_comm (Z.to_nat limit) (Z.to_nat offset)).
Qed.

Lemma page_rows_past_the_end (limit offset : Z) (l : list Row) :
  Z.of_nat (List.length l) <= offset -> page_rows limit offset l = [].
Proof.
  intros H. unfold page_rows. rewrite skipn_all2 by lia. apply firstn_nil.
Qed.

Section Paging.
Variable parse_pagination_params : Request -> string + (Z * Z).
Variable ts_parse : string -> pasted.
Variable ts_match : string -> value -> bool.
Variable ts_rank : string -> value -> Z.
Variable ts_scan : string -> Z -> Z -> list Row -> list Row.

Lemma ordered_rows_length (search : option string) (limit offset : Z) (db : DB) :
  scans_table ts_scan search limit offset db ->
  (List.length (ordered_rows ts_match ts_rank ts_scan search limit offset db)
   <= List.length (leads db))%nat.
Proof.
  destruct search as [s|]; simpl; intros H.
  - unfold search_rows. rewrite (Permutation_length (order_by_perm _ _)).
    rewrite <- (Permutation_length H). apply filter_length_le.
  - now rewrite (Permutation_length (order_by_perm _ _)).
Qed.

Lemma In_search_rows (search : string) (limit offset : Z) (db : DB) (r : Row) :
  Permutation (ts_scan search limit offset (leads db)) (leads db) ->
  In r (search_rows ts_match ts_rank ts_scan search limit offset db) ->
  In r (leads db) /\ ts_match search (getattr r "company_name") = true.
Proof.
  intros P H. unfold search_rows in H.
  apply (Permutation_in _ (order_by_perm _ _)) in H.
  apply filter_In in H. destruct H as [H E]. split; [|assumption].
  now apply (Permutation_in _ P).
Qed.

(** X11: with a search term that is a query, and LIMIT and OFFSET within
    [bigint], every lead of the answer comes from a row of the table whose
    [company_name] matches the term, the answer holds at most [perpage]
    leads, and [count] is their number. *)
Theorem search_returns_matching_rows_only
    (request : Request) (db : DB) (page perpage : Z) (search : string) :
  method request = GET ->
  parse_pagination_params request = inr (page, perpage) ->
  1 <= page -> 1 <= perpage ->
  perpage <= bigint_max -> (page - 1) * perpage <= bigint_max ->
  _parse_search_param request = Some search ->
  ts_parse search = Query ->
  Permutation (ts_scan search perpage ((page - 1) * perpage) (leads db)) (leads db) ->
  exists rows,
    leads_collection_view parse_pagination_params ts_parse ts_match ts_rank ts_scan request db =
      (Returned
         (JDict [("count", JInt (Z.of_nat (List.length rows)));
                 ("query", JDict [("page", JInt page); ("perpage", JInt perpage)]);
                 ("leads",
                  JList
                    (map json_of_dict
                       (map (lead_of_row (parse_include request) (parse_drop_null request))
                          rows)))])
         200,
       db)
    /\ (forall r, In r rows ->
          In r (leads db) /\ ts_match search (getattr r "company_name") = true)
    /\ (List.length rows <= Z.to_nat perpage)%nat.
Proof.
  intros Hm Hp H1 H2 H3 H4 Hs Hq P.
  destruct (valid_page_bounds page perpage H1 H2 H3 H4) as [B1 B2].
  assert (Hw : written_query ts_parse (_parse_search_param request))
    by (rewrite Hs; exact Hq).
  destruct (get_all_leads_run parse_pagination_params ts_parse ts_match ts_rank ts_scan
              request db page perpage Hm Hp B1 B2 Hw) as [_ Hrun].
  eexists. split; [exact Hrun|]. rewrite Hs. split.
  - intros r Hr. apply In_page_rows in Hr. now apply In_search_rows in Hr.
  - apply page_rows_length.
Qed.

(** X12: on a table with unique ids and without a search term, two requests
    that differ only in asking for a page and for the page after it are
    answered with leads that, put one after the other, are the leads of the
    rows in ascending [id] from the first page's offset on, twice [perpage]
    of them at most: the pages neither overlap nor leave a row out. *)
Theorem consecutive_pages_are_contiguous
    (request next : Request) (db : DB) (page perpage : Z) :
  method request = GET -> method next = GET ->
  parse_pagination_params request = inr (page, perpage) ->
  parse_pagination_params next = inr (page + 1, perpage) ->
  1 <= page -> 1 <= perpage ->
  perpage <= bigint_max -> page * perpage <= bigint_max ->
  NoDup (map row_id (leads db)) ->
  _parse_search_param request = None ->
  _parse_search_param next = None ->
  parse_include next = parse_include request ->
  parse_drop_null next = parse_drop_null request ->
  exists leads1 leads2,
    leads_collection_view parse_pagination_params ts_parse ts_match ts_rank ts_scan request db =
      (Returned
         (JDict [("count", JInt (Z.of_nat (List.length leads1)));
                 ("query", JDict [("page", JInt page); ("perpage", JInt perpage)]);
                 ("leads", JList (map json_of_dict leads1))])
         200,
       db)
    /\ leads_collection_view parse_pagination_params ts_parse ts_match ts_rank ts_scan next db =
         (Returned
            (JDict [("count", JInt (Z.of_nat (List.length leads2)));
                    ("query", JDict [("page", JInt (page + 1)); ("perpage", JInt perpage)]);
                    ("leads", JList (map json_of_dict leads2))])
            200,
          db)
    /\ (leads1 ++ leads2)%list =
       map (lead_of_row (parse_include request) (parse_drop_null request))
         (firstn (Z.to_nat (2 * perpage))
            (skipn (Z.to_nat ((page - 1) * perpage)) (order_by row_id (leads db)))).
Proof.
  intros Hm Hm' Hp Hp' H1 H2 H3 H4 _ Hs Hs' Hi Hd.
  destruct (valid_page_bounds page perpage H1 H2 H3 ltac:(nia)) as [B1 B2].
  destruct (valid_page_bounds (page + 1) perpage ltac:(lia) H2 H3 ltac:(nia)) as [_ B2'].
  assert (Hw : written_query ts_parse (_parse_search_param request))
    by (rewrite Hs; exact I).
  assert (Hw' : written_query ts_parse (_parse_search_param next))
    by (rewrite Hs'; exact I).
  destruct (get_all_leads_run parse_pagination_params ts_parse ts_match ts_rank ts_scan
              request db page perpage Hm Hp B1 B2 Hw) as [_ Hrun].
  destruct (get_all_leads_run parse_pagination_params ts_parse ts_match ts_rank ts_scan
              next db (page + 1) perpage Hm' Hp' B1 B2' Hw') as [_ Hrun'].
  cbv zeta in Hrun, Hrun'. rewrite Hs in Hrun. rewrite Hs', Hi, Hd in Hrun'.
  simpl ordered_rows in Hrun, Hrun'.
  eexists. eexists. split; [|split].
  - rewrite Hrun. unfold list_response. rewrite length_map. reflexivity.
  - rewrite Hrun'. unfold list_response. rewrite length_map. reflexivity.
  - rewrite <- map_app. f_equal.
    replace ((page + 1 - 1) * perpage) with ((page - 1) * perpage + perpage) by lia.
    rewrite page_rows_next by lia.
    unfold page_rows. now replace (perpage + perpage) with (2 * perpage) by lia.
Qed.

(** X13: when the statement is the written one and its LIMIT and OFFSET are
    within [bigint], a page that starts at or past the number of rows of the
    table is answered 200 with no leads and [count] 0. *)
Theorem page_past_the_end_is_empty (request : Request) (db : DB) (page perpage : Z) :
  method request = GET ->
  parse_pagination_params request = inr (page, perpage) ->
  1 <= page -> 1 <= perpage ->
  perpage <= bigint_max -> (page - 1) * perpage <= bigint_max ->
  written_query ts_parse (_parse_search_param request) ->
  scans_table ts_scan (_parse_search_param request) perpage ((page - 1) * perpage) db ->
  Z.of_nat (List.length (leads db)) <= (page - 1) * perpage ->
  leads_collection_view parse_pagination_params ts_parse ts_match ts_rank ts_scan request db =
    (Returned
       (JDict [("count", JInt 0);
               ("query", JDict [("page", JInt page); ("perpage", JInt perpage)]);
               ("leads", JList [])])
       200,
     db).
Proof.
  intros Hm Hp H1 H2 H3 H4 Hw Hscan Hlen.
  destruct (valid_page_bounds page perpage H1 H2 H3 H4) as [B1 B2].
  destruct (get_all_leads_run parse_pagination_params ts_parse ts_match ts_rank ts_scan
              request db page perpage Hm Hp B1 B2 Hw) as [_ Hrun].
  cbv zeta in Hrun. rewrite page_rows_past_the_end in Hrun; [exact Hrun|].
  pose proof (ordered_rows_length (_parse_search_param request)
                perpage ((page - 1) * perpage) db Hscan). lia.
Qed.

(** X14: GET /leads is answered 400 exactly when the pagination helper raises,
    and the 400 carries the helper's message under [detail.error]; the other
    query parameters and the table have no part in it. *)
Theorem bad_pagination_is_400 (request : Request) (db : DB) :
  method request = GET ->
  (status_of
     (fst (leads_collection_view parse_pagination_params ts_parse ts_match ts_rank ts_scan
             request db))
     = Some 400
   <-> exists e, parse_pagination_params request = inl e)
  /\ (forall e, parse_pagination_params request = inl e ->
        leads_collection_view parse_pagination_params ts_parse ts_match ts_rank ts_scan
          request db =
          (Returned
             (JDict [("message", JStr "invalid query parameters");
                     ("detail", JDict [("error", JStr e)])])
             400,
           db)).
Proof.
  intros Hm. unfold leads_collection_view, _get_all_leads. rewrite Hm. split.
  - destruct (parse_pagination_params request) as [e|[page perpage]]; simpl.
    + split; [eauto | reflexivity].
    + split; [|intros [e He]; discriminate].
      destruct (leads_query _ _ _ _ _ _ _ _); [discriminate|].
      destruct (collect_leads _ _ _). discriminate.
  - intros e He. now rewrite He.
Qed.
End Paging.

Lemma search_returns_matching_rows_only_witness :
  let request := Demo.get [("page", "1"); ("perpage", "1"); ("search", "bank")] in
  exists rows,
    Demo.leads_collection_view request Demo.banks =
      (Returned
         (JDict [("count", JInt (Z.of_nat (List.length rows)));
                 ("query", JDict [("page", JInt 1); ("perpage", JInt 1)]);
                 ("leads",
                  JList (map json_of_dict (map (lead_of_row DEFAULT_LEAD_FIELDS false) rows)))])
         200,
       Demo.banks)
    /\ (forall r, In r rows ->
          In r (leads Demo.banks)
          /\ Demo.ts_match "bank" (getattr r "company_name") = true)
    /\ (List.length rows <= 1)%nat.
Proof.
  intros request.
  refine (search_returns_matching_rows_only
            Demo.parse_pagination_params Demo.ts_parse Demo.ts_match Demo.ts_rank
            Demo.ts_scan
            request Demo.banks 1 1 "bank" eq_refl eq_refl _ _ _ _ eq_refl eq_refl
            (Permutation_refl _)); unfold bigint_max; lia.
Defined.

Lemma consecutive_pages_are_contiguous_witness :
  let request := Demo.get [("page", "1"); ("perpage", "1"); ("include", "id")] in
  let next := Demo.get [("page", "2"); ("perpage", "1"); ("include", "id")] in
  exists leads1 leads2,
    Demo.leads_collection_view request Demo.table =
      (Returned
         (JDict [("count", JInt (Z.of_nat (List.length leads1)));
                 ("query", JDict [("page", JInt 1); ("perpage", JInt 1)]);
                 ("leads", JList (map json_of_dict leads1))])
         200,
       Demo.table)
    /\ Demo.leads_collection_view next Demo.table =
         (Returned
            (JDict [("count", JInt (Z.of_nat (List.length leads2)));
                    ("query", JDict [("page", JInt 2); ("perpage", JInt 1)]);
                    ("leads", JList (map json_of_dict leads2))])
            200,
          Demo.table)
    /\ (leads1 ++ leads2)%list = [[("id", VInt 1)]; [("id", VInt 2)]].
Proof.
  intros request next.
  refine (consecutive_pages_are_contiguous
            Demo.parse_pagination_params Demo.ts_parse Demo.ts_match Demo.ts_rank
            Demo.ts_scan
            request next Demo.table 1 1 eq_refl eq_refl eq_refl eq_refl _ _ _ _ _
            eq_refl eq_refl eq_refl eq_refl); try (unfold bigint_max; lia).
  simpl. repeat constructor; simpl; intuition discriminate.
Defined.

Lemma page_past_the_end_is_empty_witness :
  Demo.leads_collection_view (Demo.get [("page", "4"); ("perpage", "1")]) Demo.table
  = (Returned
       (JDict [("count", JInt 0);
               ("query", JDict [("page", JInt 4); ("perpage", JInt 1)]);
               ("leads", JList [])])
       200,
     Demo.table).
Proof.
  refine (page_past_the_end_is_empty
            Demo.parse_pagination_params Demo.ts_parse Demo.ts_match Demo.ts_rank
            Demo.ts_scan
            (Demo.get [("page", "4"); ("perpage", "1")]) Demo.table 4 1
            eq_refl eq_refl _ _ _ _ I I _); try (unfold bigint_max; lia).
  simpl. lia.
Defined.

Lemma bad_pagination_is_400_witness :
  Demo.leads_collection_view (Demo.get [("page", "x"); ("search", "acme")]) Demo.table
  = (Returned
       (JDict [("message", JStr "invalid query parameters");
               ("detail",
                JDict [("error", JStr "invalid literal for int() with base 10: 'x'")])])
       400,
     Demo.table).
Proof.
  exact (proj2 (bad_pagination_is_400
                  Demo.parse_pagination_params Demo.ts_parse Demo.ts_match Demo.ts_rank
                  Demo.ts_scan
                  (Demo.get [("page", "x"); ("search", "acme")]) Demo.table eq_refl)
           _ eq_refl).
Defined.

(** ** The [include] parameter and the case of its letters *)

Lemma ascii_lower_comma (c : ascii) :
  Ascii.eqb (ascii_lower c) comma = Ascii.eqb c comma.
Proof. destruct c as [[] [] [] [] [] [] [] []]; reflexivity. Qed.

Lemma split_lower (s : string) : split comma (lower s) = map lower (split comma s).
Proof.
  induction s as [|c t IH]; [reflexivity|].
  cbn [lower split]. rewrite ascii_lower_comma, IH.
  destruct (Ascii.eqb c comma); [reflexivity|].
  destruct (split comma t); reflexivity.
Qed.

Lemma filter_of_map {A B} (f : A -> B) (p : B -> bool) (l : list A) :
  filter p (map f l) = map f (filter (fun x => p (f x)) l).
Proof.
  induction l as [|x t IH]; simpl; [reflexivity|].
  destruct (p (f x)); simpl; now rewrite IH.
Qed.

(** The fields asked for depend on the lowercased [include] string alone. *)
Lemma parse_include_lower (request : Request) (include : string) :
  args_get "include" request = Some include ->
  parse_include request =
  map strip (filter (fun field => str_in field DEFAULT_LEAD_FIELDS)
               (split comma (lower include))).
Proof.
  intros H. unfold parse_include. rewrite H, split_lower, filter_of_map, map_map.
  reflexivity.
Qed.

(** X15: two [include] strings that differ only in the case of their letters
    select the same fields, in the same order. *)
Theorem include_ignores_case (request request' : Request) (include include' : string) :
  args_get "include" request = Some include ->
  args_get "include" request' = Some include' ->
  lower include = lower include' ->
  parse_include request = parse_include request'.
Proof.
  intros H H' E.
  now rewrite (parse_include_lower request include H),
              (parse_include_lower request' include' H'), E.
Qed.

Lemma include_ignores_case_witness :
  parse_include (Demo.get [("include", "ID,Company_Name")])
  = parse_include (Demo.get [("include", "id,COMPANY_NAME")]).
Proof.
  exact (include_ignores_case
           (Demo.get [("include", "ID,Company_Name")])
           (Demo.get [("include", "id,COMPANY_NAME")])
           "ID,Company_Name" "id,COMPANY_NAME" eq_refl eq_refl eq_refl).
Defined.

(** ** Entries of a body the handlers do not keep *)



Section Unkept.
Variable parse_pagination_params : Request -> string + (Z * Z).
Variable ts_parse : string -> pasted.
Variable ts_match : string -> value -> bool.
Variable ts_rank : string -> value -> Z.
Variable ts_scan : string -> Z -> Z -> list Row -> list Row.

End Unkept.


(** ** The listing and the order of storage *)

Section SortedUnique.
Variable key : Row -> Z.

Lemma key_injective (l : list Row) (a b : Row) :
  NoDup (map key l) -> In a l -> In b l -> key a = key b -> a = b.
Proof.
  induction l as [|x t IH]; simpl; intros ND Ha Hb E; [contradiction|].
  inversion ND as [|? ? Hx NDt]; subst.
  destruct Ha as [->|Ha], Hb as [->|Hb]; auto.
  - exfalso. apply Hx. rewrite E. now apply in_map.
  - exfalso. apply Hx. rewrite <- E. now apply in_map.
Qed.

(** Two orderings by a key of the same rows, no two of one key, are one. *)
Lemma sorted_perm_unique (l1 : list Row) : forall l2,
  StronglySorted (key_le key) l1 -> StronglySorted (key_le key) l2 ->
  Permutation l1 l2 -> NoDup (map key l1) -> l1 = l2.
Proof.
  induction l1 as [|a t1 IH]; intros l2 S1 S2 P ND.
  - apply Permutation_nil in P. now subst.
  - destruct l2 as [|b t2]; [apply Permutation_sym, Permutation_nil in P; discriminate|].
    inversion S1 as [|? ? S1' F1]; inversion S2 as [|? ? S2' F2]; subst.
    rewrite Forall_forall in F1, F2.
    assert (Ha : In a (b :: t2)) by (apply (Permutation_in _ P); now left).
    assert (Hb : In b (a :: t1))
      by (apply (Permutation_in _ (Permutation_sym P)); now left).
    assert (Hba : key b <= key a).
    { destruct Ha as [->|Ha]; [lia | now apply F2]. }
    assert (Hab : key a <= key b).
    { destruct Hb as [->|Hb]; [lia | now apply F1]. }
    assert (E : a = b).
    { apply (key_injective (a :: t1)); [assumption | now left | assumption | lia]. }
    subst b. f_equal. apply IH; try assumption.
    + now apply Permutation_cons_inv in P.
    + now inversion ND.
Qed.

Lemma order_by_perm_unique (l1 l2 : list Row) :
  Permutation l1 l2 -> NoDup (map key l1) -> order_by key l1 = order_by key l2.
Proof.
  intros P ND. apply sorted_perm_unique.
  - apply order_by_sorted.
  - apply order_by_sorted.
  - rewrite !order_by_perm. exact P.
  - apply Permutation_NoDup with (l := map key l1); [|assumption].
    apply Permutation_map, Permutation_sym, order_by_perm.
Qed.
End SortedUnique.

Lemma Forall2_map_in {A B} (P : A -> B -> Prop) (f : A -> B) (l : list A) :
  (forall x, In x l -> P x (f x)) -> Forall2 P l (map f l).
Proof.
  induction l as [|x t IH]; simpl; intros H; constructor; auto.
Qed.

Section Storage.
Variable parse_pagination_params : Request -> string + (Z * Z).
Variable ts_parse : string -> pasted.
Variable ts_match : string -> value -> bool.
Variable ts_rank : string -> value -> Z.
Variable ts_scan : string -> Z -> Z -> list Row -> list Row.

(** X17: without a search term the answer of GET /leads does not depend on
    the order in which the table stores its rows: two tables holding the same
    rows, no two of one id, are listed alike, page by page. *)
Theorem listing_ignores_storage_order (request : Request) (db db' : DB) :
  method request = GET ->
  _parse_search_param request = None ->
  NoDup (map row_id (leads db)) ->
  Permutation (leads db) (leads db') ->
  fst (leads_collection_view parse_pagination_params ts_parse ts_match ts_rank ts_scan request db)
  = fst (leads_collection_view parse_pagination_params ts_parse ts_match ts_rank ts_scan request db').
Proof.
  intros Hm Hs ND P. unfold leads_collection_view. rewrite Hm. simpl fst.
  unfold _get_all_leads.
  destruct (parse_pagination_params request) as [e|[page perpage]]; [reflexivity|].
  cbv zeta. rewrite Hs. unfold leads_query, select_page.
  now rewrite (order_by_perm_unique row_id _ _ P ND).
Qed.

(** X18: on a table with unique ids, without a search term, without
    [include] and with [drop_null] off, and with LIMIT and OFFSET within
    [bigint], every lead of a page is the body that GET /leads/{id} answers for the
    id of its row. *)
Theorem listing_agrees_with_get
    (request get : Request) (db : DB) (page perpage : Z) :
  method request = GET -> method get = GET ->
  parse_pagination_params request = inr (page, perpage) ->
  1 <= page -> 1 <= perpage ->
  perpage <= bigint_max -> (page - 1) * perpage <= bigint_max ->
  _parse_search_param request = None ->
  args_get "include" request = None ->
  parse_drop_null request = false ->
  NoDup (map row_id (leads db)) ->
  exists rows response_body,
    leads_collection_view parse_pagination_params ts_parse ts_match ts_rank ts_scan request db =
      (Returned (list_response page perpage response_body (Z.of_nat (List.length rows)))
         200,
       db)
    /\ Forall2
         (fun row lead =>
            lead_view (row_id row) get db = (Returned (json_of_dict lead) 200, db))
         rows response_body.
Proof.
  intros Hm Hg Hp H1 H2 H3 H4 Hs Hi Hd ND.
  destruct (valid_page_bounds page perpage H1 H2 H3 H4) as [B1 B2].
  assert (Hw : written_query ts_parse (_parse_search_param request))
    by (rewrite Hs; exact I).
  destruct (get_all_leads_run parse_pagination_params ts_parse ts_match ts_rank ts_scan
              request db page perpage Hm Hp B1 B2 Hw) as [_ Hrun].
  cbv zeta in Hrun. rewrite Hs in Hrun.
  eexists. eexists. split; [exact Hrun|].
  apply Forall2_map_in. intros row Hr.
  apply In_page_rows in Hr. simpl in Hr.
  apply (Permutation_in _ (order_by_perm _ _)) in Hr.
  unfold lead_view, _get_lead_by_id. rewrite Hg.
  rewrite (select_by_id_unique db row ND Hr).
  unfold parse_include, lead_of_row. rewrite Hi, Hd. reflexivity.
Qed.
End Storage.

Lemma listing_ignores_storage_order_witness :
  let request := Demo.get [("page", "1"); ("perpage", "2"); ("include", "id")] in
  let shuffled :=
    mkDB [ Demo.lead 2 [("company_name", VStr "Acme Corp")];
           Demo.lead 3 [("company_name", VStr "Other")];
           Demo.lead 1 [("company_name", VStr "Acme Acme Corp");
                        ("website", VStr "a.org")] ] 4 in
  fst (Demo.leads_collection_view request Demo.table)
  = fst (Demo.leads_collection_view request shuffled).
Proof.
  intros request shuffled.
  refine (listing_ignores_storage_order
            Demo.parse_pagination_params Demo.ts_parse Demo.ts_match Demo.ts_rank Demo.ts_scan
            request Demo.table shuffled eq_refl eq_refl _ _).
  - simpl. repeat constructor; simpl; intuition discriminate.
  - simpl. apply Permutation_sym.
    apply perm_trans with (l' := [Demo.lead 3 [("company_name", VStr "Other")];
                                  Demo.lead 2 [("company_name", VStr "Acme Corp")];
                                  Demo.lead 1 [("company_name", VStr "Acme Acme Corp");
                                               ("website", VStr "a.org")]]).
    + apply perm_swap.
    + apply perm_skip. apply perm_swap.
Defined.

Lemma listing_agrees_with_get_witness :
  let request := Demo.get [("page", "1"); ("perpage", "2")] in
  exists rows response_body,
    Demo.leads_collection_view request Demo.table =
      (Returned (list_response 1 2 response_body (Z.of_nat (List.length rows))) 200,
       Demo.table)
    /\ Forall2
         (fun row lead =>
            lead_view (row_id row) (Demo.get []) Demo.table
            = (Returned (json_of_dict lead) 200, Demo.table))
         rows response_body.
Proof.
  intros request.
  refine (listing_agrees_with_get
            Demo.parse_pagination_params Demo.ts_parse Demo.ts_match Demo.ts_rank Demo.ts_scan
            request (Demo.get []) Demo.table 1 2
            eq_refl eq_refl eq_refl _ _ _ _ eq_refl eq_refl eq_refl _);
    try (unfold bigint_max; lia).
  simpl. repeat constructor; simpl; intuition discriminate.
Defined.
